(** * Business Validator: transcript-to-report extraction and the search shim

    A shallow embedding of [business_validator.py]: the report extractor
    ([BusinessValidatorAgent._generate_final_report] with its local
    [find_agent_response]) and the search augmentation shim
    ([WebSearchAgent.web_search] and [WebSearchAgent.generate_reply]).

    - Python [str] is [string], a sequence of characters; [str.find], [in]
      and slicing are written out with Python's conventions ([-1] for "not
      found", clamped slice bounds). Nothing depends on the alphabet.
    - A message is a Python [dict] with text values: [gmap string string].
      [m.get(k)] is [m !! k], [m.get(k, d)] is [default d (m !! k)] and
      [m[k] = v] is [<[k:=v]> m]. The messages of a list are distinct
      objects, so a list of messages is a list of values.
    - Effects are threaded through small state monads: the transcript, the
      log of searches and the console output. The search provider and the
      parent class of the agent are parameters. *)

From Stdlib Require Import ZArith Ascii.
From Stdlib Require String.
From stdpp Require Import base option list strings gmap pretty.

Local Open Scope Z_scope.

(** ** Python strings *)

Definition len (s : string) : Z := Z.of_nat (String.length s).

(** A start or stop bound of a slice, as CPython adjusts it for a sequence
    of length [n]: a negative bound counts from the end, then the bound is
    clamped to [0 .. n]. *)
Definition slice_bound (n i : Z) : Z :=
  if i <? 0 then Z.max 0 (i + n) else Z.min i n.

(** [s[lo:hi]] *)
Definition slice (s : string) (lo hi : Z) : string :=
  let lo' := slice_bound (len s) lo in
  let hi' := slice_bound (len s) hi in
  String.substring (Z.to_nat lo') (Z.to_nat (hi' - lo')) s.

(** [s.find(sub, start)]: the lowest index [i >= start] at which [sub]
    occurs in [s], or [-1]. A negative [start] counts from the end; a
    [start] beyond the end finds nothing, not even the empty string. *)
Definition find (s sub : string) (start : Z) : Z :=
  let start' := if start <? 0 then Z.max 0 (start + len s) else start in
  match String.index (Z.to_nat start') sub s with
  | Some i => Z.of_nat i
  | None => -1
  end.

(** [sub in s] *)
Definition str_in (sub s : string) : bool :=
  match String.index 0 sub s with
  | Some _ => true
  | None => false
  end.

(** [sep.join(parts)] *)
Definition join (sep : string) (parts : list string) : string :=
  String.concat sep parts.

(** Truthiness of a [str] and of an optional [str] ([None] and [""] are
    falsy). *)
Definition str_truthy (s : string) : bool :=
  negb (String.eqb s "").

Definition opt_truthy (o : option string) : bool :=
  match o with
  | Some s => str_truthy s
  | None => false
  end.

(** ** Occurrences, stated independently of [find] *)

(** [sub] occurs in [s] at offset [p]. *)
Definition occurs_at (sub s : string) (p : nat) : Prop :=
  ∃ a b, s = a +:+ sub +:+ b ∧ String.length a = p.

Definition occurs (sub s : string) : Prop :=
  ∃ p, occurs_at sub s p.

(** [p] is the lowest offset [>= n] at which [sub] occurs in [s]. *)
Definition first_occ_from (sub s : string) (n p : nat) : Prop :=
  (n ≤ p)%nat ∧ occurs_at sub s p ∧
  ∀ q, (n ≤ q)%nat → (q < p)%nat → ¬ occurs_at sub s q.

Definition first_occ (sub s : string) (p : nat) : Prop :=
  first_occ_from sub s 0 p.

(** ** Messages and the transcript *)

(** A message is a [dict]; the conversation engine fills in the keys
    ["role"] and ["content"] (and possibly others, such as ["name"]), all
    with text values. *)
Abbreviation message := (gmap string string).

(** ** The report extractor *)

(** What report generation can touch: the list object [messages] (shared
    with the conversation engine), the console, and, as instrumentation, the
    arguments of every [find_agent_response] call in order. *)
Record world := World {
  w_messages : list message;
  w_searches : list (string * option string);
  w_stdout : list string
}.

Definition M (A : Type) : Type := world → A * world.

#[global] Instance M_ret : MRet M := λ A x w, (x, w).
#[global] Instance M_bind : MBind M :=
  λ A B f c w, let '(a, w') := c w in f a w'.

Definition read_messages : M (list message) :=
  λ w, (w_messages w, w).

Definition log_search (pattern_start : string) (pattern_end : option string) :
    M unit :=
  λ w, (tt, World (w_messages w)
                  (w_searches w ++ [(pattern_start, pattern_end)])
                  (w_stdout w)).

Definition print (line : string) : M unit :=
  λ w, (tt, World (w_messages w) (w_searches w) (w_stdout w ++ [line])).

Fixpoint for_each {A : Type} (xs : list A) (body : A → M unit) : M unit :=
  match xs with
  | [] => mret tt
  | x :: xs' => body x ;; for_each xs' body
  end.

Definition nl : string := String (ascii_of_nat 10) "".

(** The part of the loop body of [find_agent_response] that runs once the
    start marker has been found in [content]. *)
Definition matched (content pattern_start : string)
    (pattern_end : option string) : string :=
  if opt_truthy pattern_end then
    let pattern_end := default "" pattern_end in
    let start_idx := find content pattern_start 0 in
    let end_idx := find content pattern_end start_idx in
    if bool_decide (end_idx ≠ -1) then
      slice content start_idx (end_idx + len pattern_end)
    else content
  else content.

(** The loop [for m in reversed(messages)], over the already reversed
    list; falling off the end is [return None]. *)
Fixpoint scan (ms : list message) (pattern_start : string)
    (pattern_end : option string) : option string :=
  match ms with
  | [] => None
  | m :: ms' =>
      if bool_decide (m !! "role" = Some "assistant") then
        let content := default "" (m !! "content") in
        if str_in pattern_start content then
          Some (matched content pattern_start pattern_end)
        else scan ms' pattern_start pattern_end
      else scan ms' pattern_start pattern_end
  end.

Definition find_agent_response (pattern_start : string)
    (pattern_end : option string) : M (option string) :=
  log_search pattern_start pattern_end ;;
  messages ← read_messages ;
  mret (scan (reverse messages) pattern_start pattern_end).

(** [a or b], with [b] evaluated only when [a] is falsy. *)
Definition py_or (a : option string) (b : M (option string)) :
    M (option string) :=
  if opt_truthy a then mret a else b.

(** [f"{x}"] for an optional text: [None] prints as its name. *)
Definition str_of_opt (o : option string) : string :=
  default "None" o.

Definition report_header (business_idea now : string) : string :=
  nl +:+ "# Business Validation Report" +:+ nl +:+
  "**Business Idea:** " +:+ business_idea +:+ nl +:+
  "**Date:** " +:+ now +:+ nl +:+
  nl +:+
  "## Executive Summary" +:+ nl +:+
  "This report provides a comprehensive validation analysis of the business idea using a multi-agent AI system with real-time web research." +:+ nl +:+
  nl +:+
  "## Analysis Results" +:+ nl.

Definition report_footer : string :=
  nl +:+ "## Recommendations" +:+ nl +:+
  "Based on the analysis above, consider the following next steps:" +:+ nl +:+
  "1. Validate assumptions with potential customers" +:+ nl +:+
  "2. Create a minimum viable product (MVP)" +:+ nl +:+
  "3. Test the business model with early adopters" +:+ nl +:+
  "4. Refine the value proposition based on feedback" +:+ nl +:+
  "5. Develop a go-to-market strategy" +:+ nl +:+
  nl +:+
  "---" +:+ nl +:+
  "*Report generated by Business Validator AI Agent with real-time web research*" +:+ nl.

(** [_generate_final_report(business_idea, messages, debug)]; [messages] is
    the list held by the world, and [now] is the text that
    [datetime.now().strftime('%Y-%m-%d %H:%M:%S')] produces. *)
Definition _generate_final_report (business_idea now : string) (debug : bool) :
    M string :=
  (if debug then
     print (nl +:+ "--- FULL CONVERSATION LOG ---" +:+ nl) ;;
     messages ← read_messages ;
     for_each messages (λ m,
       print ("[" +:+ str_of_opt (m !! "role") +:+ "] " +:+
              slice (default "" (m !! "content")) 0 500 +:+ nl +:+ "---")) ;;
     print (nl +:+ "--- END OF CONVERSATION LOG ---" +:+ nl)
   else mret tt) ;;
  let report := report_header business_idea now in
  (* Market Research *)
  a ← find_agent_response "### MARKET RESEARCHER" None ;
  market_research ← py_or a (find_agent_response "MARKET SIZE:" None) ;
  let report :=
    if opt_truthy market_research then
      report +:+ nl +:+ "### Market Research" +:+ nl +:+
      default "" market_research +:+ nl
    else
      report +:+ nl +:+ "### Market Research" +:+ nl +:+
      "(No MarketResearcher output found.)" +:+ nl in
  (* Competitor Analysis *)
  a ← find_agent_response "### COMPETITOR SCOUT" None ;
  competitor_analysis ← py_or a (find_agent_response "DIRECT COMPETITORS:" None) ;
  let report :=
    if opt_truthy competitor_analysis then
      report +:+ nl +:+ "### Competitive Analysis" +:+ nl +:+
      default "" competitor_analysis +:+ nl
    else
      report +:+ nl +:+ "### Competitive Analysis" +:+ nl +:+
      "(No CompetitorScout output found.)" +:+ nl in
  (* Clarified Idea *)
  clarified ← find_agent_response "CLARIFIED IDEA:" (Some "BUSINESS MODEL:") ;
  let report :=
    if opt_truthy clarified then
      report +:+ nl +:+ "### Clarified Business Idea" +:+ nl +:+
      default "" clarified +:+ nl
    else report in
  (* SWOT Analysis *)
  a ← find_agent_response "### SWOT ANALYSIS" None ;
  swot ← py_or a (find_agent_response "STRENGTHS:" None) ;
  let report :=
    if opt_truthy swot then
      report +:+ nl +:+ "### SWOT Analysis" +:+ nl +:+ default "" swot +:+ nl
    else report in
  (* Feedback *)
  feedback ← find_agent_response "STRATEGIC FEEDBACK:" (Some "TERMINATE") ;
  let report :=
    if opt_truthy feedback then
      report +:+ nl +:+ "### Strategic Feedback" +:+ nl +:+
      default "" feedback +:+ nl
    else report in
  mret (report +:+ report_footer).

(** ** The search augmentation shim *)

(** Exceptions, i.e. instances of [Exception], which is what
    [except Exception] catches. *)
Inductive exn :=
  | KeyError (key : string)
  | IndexError
  | OtherException (message : string).

(** [str(e)] *)
Definition exn_str (e : exn) : string :=
  match e with
  | KeyError key => "'" +:+ key +:+ "'"
  | IndexError => "list index out of range"
  | OtherException message => message
  end.

Inductive outcome (A : Type) :=
  | Returns (a : A)
  | Raises (e : exn).
Arguments Returns {A} a.
Arguments Raises {A} e.

(** What the shim can touch besides the message list it is handed: the
    search provider (every request is recorded with its [max_results]) and
    the console. *)
Record shim_world := ShimWorld {
  s_requests : list (string * nat);
  s_stdout : list string
}.

Definition Sh (A : Type) : Type := shim_world → outcome A * shim_world.

#[global] Instance Sh_ret : MRet Sh := λ A x w, (Returns x, w).
#[global] Instance Sh_bind : MBind Sh :=
  λ A B f c w,
    match c w with
    | (Returns a, w') => f a w'
    | (Raises e, w') => (Raises e, w')
    end.

Definition raise {A : Type} (e : exn) : Sh A :=
  λ w, (Raises e, w).

(** [try: body except Exception as e: handler(e)] *)
Definition try_except {A : Type} (body : Sh A) (handler : exn → Sh A) : Sh A :=
  λ w,
    match body w with
    | (Returns a, w') => (Returns a, w')
    | (Raises e, w') => handler e w'
    end.

Definition sh_print (line : string) : Sh unit :=
  λ w, (Returns tt, ShimWorld (s_requests w) (s_stdout w ++ [line])).

(** [d[key]] on a [dict] *)
Definition getitem (d : gmap string string) (key : string) : Sh string :=
  match d !! key with
  | Some v => mret v
  | None => raise (KeyError key)
  end.

(** [l[-1]] on a [list] *)
Definition getitem_last {A : Type} (l : list A) : Sh A :=
  match last l with
  | Some x => mret x
  | None => raise IndexError
  end.

(** [[f(x) for x in xs]] *)
Fixpoint comprehension {A B : Type} (f : A → Sh B) (xs : list A) : Sh (list B) :=
  match xs with
  | [] => mret []
  | x :: xs' => y ← f x ; ys ← comprehension f xs' ; mret (y :: ys)
  end.

(** The list [l] after its last element, a [dict] object, has been updated
    in place to [x]. *)
Definition with_last {A : Type} (l : list A) (x : A) : list A :=
  <[pred (length l) := x]> l.

(** The guard [messages and len(messages) > 0]: [None] and the empty list
    are falsy, and [len] is evaluated only on a truthy [messages]. *)
Definition has_messages (messages : option (list message)) : bool :=
  match messages with
  | None => false
  | Some l => bool_decide (l ≠ []) && bool_decide (0 < length l)%nat
  end.

Record WebSearchAgent := {
  name : string;
  business_idea : string
}.

Section Shim.
Context {Sender Config Reply : Type}.

(** [list(DDGS().text(query, max_results=n))]: the provider either
    returns result records or raises. *)
Variable ddgs_text : string → nat → outcome (list (gmap string string)).

(** [autogen.AssistantAgent.generate_reply] *)
Variable super_generate_reply :
  option (list message) → Sender → Config → Reply.

Definition ddgs_request (query : string) (max_results : nat) :
    Sh (list (gmap string string)) :=
  λ w, (ddgs_text query max_results,
        ShimWorld (s_requests w ++ [(query, max_results)]) (s_stdout w)).

Definition web_search (query : string) : Sh (list string) :=
  try_except
    (results ← ddgs_request query 5 ;
     comprehension (λ result, getitem result "body") results)
    (λ e, sh_print ("Web search error: " +:+ exn_str e) ;; mret []).

(** [generate_reply(messages, sender, config)]. The result pairs the
    message list as the parent class receives it (the caller's list
    object, after any in-place update) with the parent's reply. *)
Definition generate_reply (self : WebSearchAgent)
    (messages : option (list message)) (sender : Sender) (config : Config) :
    Sh (option (list message) * Reply) :=
  messages ←
    (if has_messages messages then
        let msgs := default [] messages in
        last_dict ← getitem_last msgs ;
        let last_message := default "" (last_dict !! "content") in
        search_results ←
          (if bool_decide (name self = "MarketResearcher") then
             let query :=
               "market trends and analysis for " +:+ business_idea self in
             sh_print ("[DEBUG] MarketResearcher performing web search: "
                       +:+ query) ;;
             web_search query
           else if bool_decide (name self = "CompetitorScout") then
             let query :=
               "top competitors and alternatives for " +:+ business_idea self in
             sh_print ("[DEBUG] CompetitorScout performing web search: "
                       +:+ query) ;;
             web_search query
           else mret []) ;
        match search_results with
        | _ :: _ =>
            sh_print ("[DEBUG] Found " +:+ pretty (length search_results)
                      +:+ " web search results") ;;
            let search_context :=
              nl +:+ nl +:+ "WEB SEARCH RESULTS:" +:+ nl +:+
              join nl (take 3 search_results) in
            last_dict ← getitem_last msgs ;
            mret (Some (with_last msgs
              (<["content" := last_message +:+ search_context]> last_dict)))
        | [] =>
            sh_print ("[DEBUG] No web search results found for "
                      +:+ name self) ;;
            mret (Some msgs)
        end
     else mret messages) ;
  mret (messages, super_generate_reply messages sender config).
End Shim.

(** ** The report's sections, as a table *)

Inductive section :=
  | MarketResearch
  | CompetitiveAnalysis
  | ClarifiedIdea
  | SWOTAnalysis
  | StrategicFeedback.

Definition primary_marker (s : section) : string :=
  match s with
  | MarketResearch => "### MARKET RESEARCHER"
  | CompetitiveAnalysis => "### COMPETITOR SCOUT"
  | ClarifiedIdea => "CLARIFIED IDEA:"
  | SWOTAnalysis => "### SWOT ANALYSIS"
  | StrategicFeedback => "STRATEGIC FEEDBACK:"
  end.

Definition fallback_marker (s : section) : option string :=
  match s with
  | MarketResearch => Some "MARKET SIZE:"
  | CompetitiveAnalysis => Some "DIRECT COMPETITORS:"
  | SWOTAnalysis => Some "STRENGTHS:"
  | ClarifiedIdea | StrategicFeedback => None
  end.

Definition end_marker (s : section) : option string :=
  match s with
  | ClarifiedIdea => Some "BUSINESS MODEL:"
  | StrategicFeedback => Some "TERMINATE"
  | MarketResearch | CompetitiveAnalysis | SWOTAnalysis => None
  end.

Definition heading (s : section) : string :=
  match s with
  | MarketResearch => "### Market Research"
  | CompetitiveAnalysis => "### Competitive Analysis"
  | ClarifiedIdea => "### Clarified Business Idea"
  | SWOTAnalysis => "### SWOT Analysis"
  | StrategicFeedback => "### Strategic Feedback"
  end.

Definition placeholder (s : section) : option string :=
  match s with
  | MarketResearch => Some "(No MarketResearcher output found.)"
  | CompetitiveAnalysis => Some "(No CompetitorScout output found.)"
  | ClarifiedIdea | SWOTAnalysis | StrategicFeedback => None
  end.

Definition content (m : message) : string := default "" (m !! "content").

Definition is_assistant (m : message) : bool :=
  bool_decide (m !! "role" = Some "assistant").

(** [m] is an assistant message whose text contains [marker]. *)
Definition has_marker (marker : string) (m : message) : bool :=
  is_assistant m && str_in marker (content m).

(** The most recent message of the transcript (oldest first) that is an
    assistant message containing [marker]. *)
Definition most_recent (marker : string) (msgs : list message) :
    option message :=
  last (List.filter (has_marker marker) msgs).

(** What a search for [marker] yields on a transcript. *)
Definition lookup_marker (msgs : list message) (marker : string)
    (end_ : option string) : option string :=
  (λ m, matched (content m) marker end_) <$> most_recent marker msgs.

(** The text a section contributes: its primary marker first, its fallback
    (if it has one) only when the primary is found nowhere. *)
Definition section_value (msgs : list message) (s : section) : option string :=
  match lookup_marker msgs (primary_marker s) (end_marker s) with
  | Some v => Some v
  | None => f ← fallback_marker s ; lookup_marker msgs f None
  end.

(** The searches a section performs, in order. *)
Definition section_searches (msgs : list message) (s : section) :
    list (string * option string) :=
  (primary_marker s, end_marker s) ::
  match lookup_marker msgs (primary_marker s) (end_marker s), fallback_marker s with
  | None, Some f => [(f, None)]
  | _, _ => []
  end.

(** What a section adds to the report. *)
Definition section_text (msgs : list message) (s : section) : string :=
  match section_value msgs s, placeholder s with
  | Some v, _ => nl +:+ heading s +:+ nl +:+ v +:+ nl
  | None, Some p => nl +:+ heading s +:+ nl +:+ p +:+ nl
  | None, None => ""
  end.

(** No assistant message contains a start marker of section [s]. *)
Definition section_absent (msgs : list message) (s : section) : Prop :=
  ∀ m, m ∈ msgs → is_assistant m = true →
    ¬ occurs (primary_marker s) (content m) ∧
    ∀ f, fallback_marker s = Some f → ¬ occurs f (content m).

(** [m] is an assistant message whose text contains [marker], as a
    proposition over occurrences. *)
Definition matches (marker : string) (m : message) : Prop :=
  m !! "role" = Some "assistant" ∧ occurs marker (content m).

(** [m] is the most recent message of [msgs] that matches [marker]. *)
Definition latest_match (marker : string) (msgs : list message) (m : message) :
    Prop :=
  ∃ pre post, msgs = pre ++ m :: post ∧ matches marker m ∧
              ∀ m', m' ∈ post → ¬ matches marker m'.

(** The number of offsets at which [sub] occurs in [s]. *)
Fixpoint count_occurrences (sub s : string) : nat :=
  (if String.prefix sub s then 1 else 0) +
  match s with
  | "" => 0
  | String _ s' => count_occurrences sub s'
  end.

(** ** Sample transcripts *)

Definition msg (role text : string) : message :=
  {[ "role" := role; "content" := text ]}.

Definition transcript_of (msgs : list message) : world :=
  World msgs [] [].

(** ** The shim, described *)

(** The query a research role sends; the other roles send none. *)
Definition research_query (self : WebSearchAgent) : option string :=
  if bool_decide (name self = "MarketResearcher") then
    Some ("market trends and analysis for " +:+ business_idea self)
  else if bool_decide (name self = "CompetitorScout") then
    Some ("top competitors and alternatives for " +:+ business_idea self)
  else None.

(** The ["body"] fields of the results, when every result has one. *)
Definition bodies (results : list (gmap string string)) : option (list string) :=
  mapM (λ result : gmap string string, result !! "body") results.

(** The snippets a search yields: none when the provider raises or when a
    result lacks its ["body"]. *)
Definition snippets
    (ddgs_text : string → nat → outcome (list (gmap string string)))
    (query : string) : list string :=
  match ddgs_text query 5%nat with
  | Returns results => default [] (bodies results)
  | Raises _ => []
  end.

(** A provider that always fails, and one that honours [max_results]. *)
Definition failing_provider (query : string) (max_results : nat) :
    outcome (list (gmap string string)) :=
  Raises (OtherException "rate limited").

Definition sample_provider (query : string) (max_results : nat) :
    outcome (list (gmap string string)) :=
  Returns (take max_results
    [ {[ "title" := "t1"; "body" := "first" ]};
      {[ "body" := "second" ]};
      {[ "body" := "third" ]};
      {[ "body" := "fourth" ]};
      {[ "body" := "fifth" ]};
      {[ "body" := "sixth" ]} ]).

(** A parent class that answers with the number of messages it was given. *)
Definition sample_parent (messages : option (list message)) (sender config : unit) :
    nat :=
  length (default [] messages).

(** ** Frames *)

(** A computation that leaves the transcript as it found it. *)
Definition read_only {A : Type} (c : M A) : Prop :=
  ∀ w, w_messages (c w).2 = w_messages w.

(** A computation that also performs no search. *)
Definition silent {A : Type} (c : M A) : Prop :=
  ∀ w, w_messages (c w).2 = w_messages w ∧ w_searches (c w).2 = w_searches w.

(** What is observed of a run: the report and the searches performed. *)
Definition observed (r : string * world) : string * list (string * option string) :=
  (r.1, w_searches r.2).

(** ** More of Python's strings *)

(** [s * n] *)
Fixpoint repeat_str (s : string) (n : nat) : string :=
  match n with
  | O => ""
  | S n' => s +:+ repeat_str s n'
  end.

(** [s.endswith(suffix)] *)
Definition endswith (s suffix : string) : bool :=
  let n := String.length s in
  let k := String.length suffix in
  bool_decide (k ≤ n)%nat &&
  String.eqb (String.substring (n - k) k s) suffix.

Section Whitespace.
(** [c.isspace()] for a single character: which characters
    [strip] and [rstrip] remove. *)
Variable isspace : ascii → bool.

(** [s.lstrip()] *)
Fixpoint lstrip (s : string) : string :=
  match s with
  | "" => ""
  | String c s' => if isspace c then lstrip s' else s
  end.

(** [s.rstrip()] *)
Fixpoint rstrip (s : string) : string :=
  match s with
  | "" => ""
  | String c s' =>
      match rstrip s' with
      | "" => if isspace c then "" else String c ""
      | r => String c r
      end
  end.

(** [s.strip()] *)
Definition strip (s : string) : string := rstrip (lstrip s).

(** Every character of [s] is whitespace. *)
Fixpoint all_space (s : string) : bool :=
  match s with
  | "" => true
  | String c s' => isspace c && all_space s'
  end.

(** The [is_termination_msg] of the user proxy:
    [x.get("content", "").rstrip().endswith("TERMINATE")]. *)
Definition is_termination_msg (x : message) : bool :=
  endswith (rstrip (default "" (x !! "content"))) "TERMINATE".
End Whitespace.

(** Whitespace among the ASCII characters, as [str.isspace] has it:
    tab to carriage return, the four separators, and the space. *)
Definition ascii_isspace (c : ascii) : bool :=
  let n := nat_of_ascii c in
  ((9 <=? n) && (n <=? 13) || (28 <=? n) && (n <=? 32))%nat.

Definition dq : string := String (ascii_of_nat 34) "".

(** ** The program around the conversation *)

(** What the program touches: the environment variables, the files
    (name to text), the lines waiting on standard input, and the console.
    A prompt written by [input] is recorded on the console like a printed
    line. *)
Record app_world := AppWorld {
  a_env : gmap string string;
  a_files : gmap string string;
  a_stdin : list string;
  a_stdout : list string
}.

Definition App (A : Type) : Type := app_world → outcome A * app_world.

#[global] Instance App_ret : MRet App := λ A x w, (Returns x, w).
#[global] Instance App_bind : MBind App :=
  λ A B f c w,
    match c w with
    | (Returns a, w') => f a w'
    | (Raises e, w') => (Raises e, w')
    end.

Definition app_raise {A : Type} (e : exn) : App A :=
  λ w, (Raises e, w).

(** [try: body except Exception as e: handler(e)] *)
Definition app_try {A : Type} (body : App A) (handler : exn → App A) : App A :=
  λ w,
    match body w with
    | (Returns a, w') => (Returns a, w')
    | (Raises e, w') => handler e w'
    end.

Definition app_print (line : string) : App unit :=
  λ w, (Returns tt,
        AppWorld (a_env w) (a_files w) (a_stdin w) (a_stdout w ++ [line])).

(** [os.getenv(key)] *)
Definition getenv (key : string) : App (option string) :=
  λ w, (Returns (a_env w !! key), w).

(** [input(prompt)]: [EOFError] when standard input is exhausted. *)
Definition input (prompt : string) : App string :=
  λ w,
    let w' := AppWorld (a_env w) (a_files w) (a_stdin w) (a_stdout w ++ [prompt]) in
    match a_stdin w with
    | line :: rest =>
        (Returns line, AppWorld (a_env w) (a_files w) rest (a_stdout w'))
    | [] => (Raises (OtherException "EOF when reading a line"), w')
    end.

(** [BusinessValidatorAgent._get_config_list()] *)
Definition _get_config_list : App (list (gmap string string)) :=
  api_key ← getenv "OPENAI_API_KEY" ;
  if opt_truthy api_key then
    mret [ ({[ "model" := "gpt-4"; "api_key" := default "" api_key ]}
            : gmap string string) ]
  else
    app_print "Warning: No OpenAI API key found. Please set OPENAI_API_KEY environment variable." ;;
    app_print "You can also use local models by modifying the config_list." ;;
    mret [].

(** [BusinessValidatorAgent()], as far as it is read later: the other
    fields start as [None] and are set by [validate_business_idea] before
    they are used. *)
Record BusinessValidatorAgent := {
  config_list : list (gmap string string)
}.

Definition BusinessValidatorAgent_init : App BusinessValidatorAgent :=
  config_list ← _get_config_list ;
  mret {| config_list := config_list |}.

(** ** The agents *)

Definition Clarifier_system_message : string :=
  "You are a business idea clarifier. Your role is to:" +:+ nl +:+
  "1. Take a raw business idea and clarify it into a well-defined concept" +:+ nl +:+
  "2. Identify the core value proposition" +:+ nl +:+
  "3. Define the target market and customer segments" +:+ nl +:+
  "4. Specify the key features and benefits" +:+ nl +:+
  "5. Provide a clear, concise description of the business idea" +:+ nl +:+
  nl +:+
  "Always respond with a structured format:" +:+ nl +:+
  "- CLARIFIED IDEA: [Clear description]" +:+ nl +:+
  "- VALUE PROPOSITION: [What problem it solves]" +:+ nl +:+
  "- TARGET MARKET: [Who will buy it]" +:+ nl +:+
  "- KEY FEATURES: [Main features]" +:+ nl +:+
  "- BUSINESS MODEL: [How it makes money]".

Definition MarketResearcher_system_message : string :=
  "You are a market research specialist. Your role is to:" +:+ nl +:+
  "1. Research market trends related to the business idea" +:+ nl +:+
  "2. Identify market size and growth potential" +:+ nl +:+
  "3. Analyze market dynamics and opportunities" +:+ nl +:+
  "4. Research regulatory environment and barriers" +:+ nl +:+
  "5. Identify market risks and challenges" +:+ nl +:+
  nl +:+
  "IMPORTANT: You have access to web search results. You MUST explicitly cite, quote, or summarize the WEB SEARCH RESULTS provided in your analysis. Clearly indicate which facts or data points come from the web search, and include direct quotes or links if available. If no relevant web search results are found, state this explicitly." +:+ nl +:+
  nl +:+
  "Always respond with:" +:+ nl +:+
  "- MARKET SIZE: [Estimated market size with sources if available]" +:+ nl +:+
  "- GROWTH TREND: [Market growth direction with recent data]" +:+ nl +:+
  "- KEY TRENDS: [Relevant market trends from web search]" +:+ nl +:+
  "- REGULATORY FACTORS: [Legal/regulatory considerations]" +:+ nl +:+
  "- MARKET RISKS: [Potential market challenges]" +:+ nl +:+
  "- WEB SEARCH SOURCES: [List or summarize the web search results you used]".

Definition SWOTAnalyst_system_message : string :=
  "You are a SWOT analysis specialist. Your role is to:" +:+ nl +:+
  "1. Analyze the business idea's Strengths, Weaknesses, Opportunities, and Threats" +:+ nl +:+
  "2. Provide detailed insights for each SWOT category" +:+ nl +:+
  "3. Prioritize the most important factors" +:+ nl +:+
  "4. Suggest strategies to leverage strengths and opportunities" +:+ nl +:+
  "5. Recommend ways to address weaknesses and threats" +:+ nl +:+
  nl +:+
  "Always respond with a structured SWOT analysis:" +:+ nl +:+
  "- STRENGTHS: [List key strengths]" +:+ nl +:+
  "- WEAKNESSES: [List key weaknesses]" +:+ nl +:+
  "- OPPORTUNITIES: [List key opportunities]" +:+ nl +:+
  "- THREATS: [List key threats]" +:+ nl +:+
  "- STRATEGIC RECOMMENDATIONS: [Action items]".

Definition CompetitorScout_system_message : string :=
  "You are a competitive intelligence specialist. Your role is to:" +:+ nl +:+
  "1. Identify direct and indirect competitors" +:+ nl +:+
  "2. Analyze competitor strengths and weaknesses" +:+ nl +:+
  "3. Research competitor business models and pricing" +:+ nl +:+
  "4. Identify competitive advantages and differentiators" +:+ nl +:+
  "5. Suggest competitive positioning strategies" +:+ nl +:+
  nl +:+
  "IMPORTANT: You have access to web search results. You MUST explicitly cite, quote, or summarize the WEB SEARCH RESULTS provided in your analysis. Clearly indicate which facts or data points come from the web search, and include direct quotes or links if available. If no relevant web search results are found, state this explicitly." +:+ nl +:+
  nl +:+
  "Always respond with:" +:+ nl +:+
  "- DIRECT COMPETITORS: [List with brief descriptions from web search]" +:+ nl +:+
  "- INDIRECT COMPETITORS: [List with brief descriptions]" +:+ nl +:+
  "- COMPETITIVE LANDSCAPE: [Market positioning analysis]" +:+ nl +:+
  "- COMPETITIVE ADVANTAGES: [How to differentiate]" +:+ nl +:+
  "- COMPETITIVE THREATS: [What to watch out for]" +:+ nl +:+
  "- WEB SEARCH SOURCES: [List or summarize the web search results you used]".

Definition FeedbackAgent_system_message : string :=
  "You are a business strategy consultant. Your role is to:" +:+ nl +:+
  "1. Review all previous analyses and provide strategic feedback" +:+ nl +:+
  "2. Suggest improvements and pivots for the business idea" +:+ nl +:+
  "3. Identify potential business model innovations" +:+ nl +:+
  "4. Recommend next steps for validation" +:+ nl +:+
  "5. Provide actionable advice for moving forward" +:+ nl +:+
  nl +:+
  "Always respond with:" +:+ nl +:+
  "- STRATEGIC FEEDBACK: [Overall assessment]" +:+ nl +:+
  "- IMPROVEMENT SUGGESTIONS: [Specific recommendations]" +:+ nl +:+
  "- POTENTIAL PIVOTS: [Alternative directions]" +:+ nl +:+
  "- VALIDATION STEPS: [Next steps to test the idea]" +:+ nl +:+
  "- SUCCESS FACTORS: [Key things to focus on]" +:+ nl +:+
  nl +:+
  "IMPORTANT: After providing your analysis, end your response with " +:+ dq +:+ "TERMINATE" +:+ dq +:+ " on a new line to signal that the business validation process is complete.".

Inductive agent_class :=
  | AssistantAgent
  | WebSearchAgentClass.

(** An agent as it is constructed: its class and the arguments given. The
    [llm_config] is [{"config_list": config_list}] for both classes. *)
Record agent := Agent {
  agent_class_of : agent_class;
  agent_name : string;
  agent_system_message : string;
  agent_config_list : list (gmap string string);
  agent_business_idea : option string
}.

(** [_create_agents()]: the [dict] of agents in insertion order, for the
    validator's [config_list] and [business_idea]. *)
Definition _create_agents (config_list : list (gmap string string))
    (business_idea : string) : list (string * agent) :=
  [ ("clarifier",
     Agent AssistantAgent "Clarifier" Clarifier_system_message
           config_list None);
    ("market_researcher",
     Agent WebSearchAgentClass "MarketResearcher"
           MarketResearcher_system_message config_list (Some business_idea));
    ("swot_analyst",
     Agent AssistantAgent "SWOTAnalyst" SWOTAnalyst_system_message
           config_list None);
    ("competitor_scout",
     Agent WebSearchAgentClass "CompetitorScout"
           CompetitorScout_system_message config_list (Some business_idea));
    ("feedback_agent",
     Agent AssistantAgent "FeedbackAgent" FeedbackAgent_system_message
           config_list None) ].

(** The [WebSearchAgent] object behind an agent of that class. *)
Definition as_web_search_agent (a : agent) : option WebSearchAgent :=
  match agent_class_of a, agent_business_idea a with
  | WebSearchAgentClass, Some idea =>
      Some {| name := agent_name a; business_idea := idea |}
  | _, _ => None
  end.

(** The user proxy as [_create_user_proxy()] constructs it. *)
Record user_proxy := UserProxy {
  proxy_name : string;
  human_input_mode : string;
  max_consecutive_auto_reply : nat;
  proxy_is_termination_msg : message → bool;
  code_execution_work_dir : string;
  code_execution_use_docker : bool;
  proxy_config_list : list (gmap string string)
}.

Definition _create_user_proxy (isspace : ascii → bool)
    (config_list : list (gmap string string)) : user_proxy :=
  UserProxy "UserProxy" "NEVER" 10 (is_termination_msg isspace)
            "workspace" false config_list.

Inductive participant :=
  | ProxyParticipant (p : user_proxy)
  | AgentParticipant (a : agent).

Record group_chat := GroupChat {
  gc_agents : list participant;
  gc_messages : list message;
  gc_max_round : nat
}.

Record group_chat_manager := GroupChatManager {
  gm_groupchat : group_chat;
  gm_config_list : list (gmap string string)
}.

Definition initial_message (business_idea : string) : string :=
  nl +:+
  "Please validate this business idea: " +:+ dq +:+ business_idea +:+ dq +:+ nl +:+
  nl +:+
  "Here's the workflow:" +:+ nl +:+
  "1. Clarifier: First, clarify and refine the business idea" +:+ nl +:+
  "2. MarketResearcher: Research market trends and opportunities (will use web search for current data)" +:+ nl +:+
  "3. CompetitorScout: Identify and analyze competitors (will use web search for current competitors)" +:+ nl +:+
  "4. SWOTAnalyst: Perform a comprehensive SWOT analysis" +:+ nl +:+
  "5. FeedbackAgent: Provide strategic feedback and improvement suggestions" +:+ nl +:+
  nl +:+
  "Each agent should build upon the previous agent's work. The MarketResearcher and CompetitorScout agents will perform real web searches to get current information." +:+ nl.

Section Program.
(** [c.isspace()] on one character. *)
Variable isspace : ascii → bool.

(** [user_proxy.initiate_chat(manager, message=...)]: the conversation
    engine; it returns with the messages it has put into
    [groupchat.messages], or raises. *)
Variable initiate_chat :
  user_proxy → group_chat_manager → string → outcome (list message).

(** Whether [open(filename, "w", encoding="utf-8")] raises, and what. *)
Variable open_error : string → option exn.

(** The texts [datetime.now().strftime(...)] gives when the report is
    generated ('%Y-%m-%d %H:%M:%S') and when it is saved
    ("%Y%m%d_%H%M%S"). *)
Variable now : string.
Variable stamp : string.

Definition run_chat (proxy : user_proxy) (manager : group_chat_manager)
    (initial : string) : App (list message) :=
  λ w, (initiate_chat proxy manager initial, w).

(** [with open(filename, "w", encoding="utf-8") as f: f.write(text)]:
    once the file is open the text replaces its content. *)
Definition write_file (filename text : string) : App unit :=
  λ w,
    match open_error filename with
    | Some e => (Raises e, w)
    | None =>
        (Returns tt,
         AppWorld (a_env w) (<[filename := text]> (a_files w)) (a_stdin w)
                  (a_stdout w))
    end.

(** [validate_business_idea(business_idea)] *)
Definition validate_business_idea (self : BusinessValidatorAgent)
    (business_idea : string) : App string :=
  app_print ("Starting business validation for: " +:+ business_idea) ;;
  app_print (repeat_str "=" 60) ;;
  let agents := _create_agents (config_list self) business_idea in
  let proxy := _create_user_proxy isspace (config_list self) in
  let groupchat :=
    GroupChat (ProxyParticipant proxy :: (AgentParticipant <$> agents.*2))
              [] 50 in
  let manager := GroupChatManager groupchat (config_list self) in
  messages ← run_chat proxy manager (initial_message business_idea) ;
  let r := _generate_final_report business_idea now false
             (World messages [] []) in
  ((λ w, (Returns r.1,
          AppWorld (a_env w) (a_files w) (a_stdin w)
                   (a_stdout w ++ w_stdout r.2))) : App string).

(** [save_report(report, filename)] *)
Definition save_report (report : string) (filename : option string) :
    App string :=
  let filename :=
    match filename with
    | None => "business_validation_report_" +:+ stamp +:+ ".md"
    | Some filename => filename
    end in
  write_file filename report ;;
  app_print ("Report saved to: " +:+ filename) ;;
  mret filename.

(** [main()] *)
Definition main : App unit :=
  app_print ("ğŸš€ Business Validator AI Agent") ;;
  app_print (repeat_str "=" 40) ;;
  business_idea ← input "Enter your business idea: " ;
  if negb (str_truthy (strip isspace business_idea)) then
    app_print "Please provide a business idea to validate."
  else
    validator ← BusinessValidatorAgent_init ;
    app_try
      (report ← validate_business_idea validator business_idea ;
       filename ← save_report report None ;
       app_print (nl +:+ repeat_str "=" 60) ;;
       app_print "âœ… Business validation completed!" ;;
       app_print ("ğŸ“„ Report saved to: " +:+ filename) ;;
       app_print (repeat_str "=" 60))
      (λ e,
         app_print ("âŒ Error during validation: " +:+ exn_str e) ;;
         app_print "Please check your OpenAI API key and try again.").
End Program.

(** [BusinessValidatorAgent._web_search(query)] *)
Definition _web_search
    (ddgs_text : string → nat → outcome (list (gmap string string)))
    (query : string) : Sh (list string) :=
  try_except
    (results ← ddgs_request ddgs_text query 5 ;
     comprehension (λ result, getitem result "body") results)
    (λ e, sh_print ("Web search error: " +:+ exn_str e) ;; mret []).

(** ** The logging wrapper *)

(** One element of the [messages] keyword argument: a [dict], or any other
    object, given by the text [str] makes of it. *)
Inductive logged_message :=
  | DictMessage (d : gmap string string)
  | OtherMessage (text : string).

(** The keyword arguments [logging_create] looks at; [kw_model] is the
    text the f-string makes of the value. *)
Record create_kwargs := {
  kw_model : option string;
  kw_messages : option (list logged_message)
}.

Section Logging.
Context {Args Result : Type}.

(** [repr] of a [str]. *)
Variable repr : string → string.

(** The wrapped [openai.ChatCompletion.create], called with the positional
    arguments, the keyword arguments looked at and all the others. *)
Variable _real_create : Args → create_kwargs → outcome Result.

Definition logging_create (args : Args) (kwargs : create_kwargs) : App Result :=
  let model := default "unknown" (kw_model kwargs) in
  let messages := default [] (kw_messages kwargs) in
  let first_msg :=
    match messages with
    | DictMessage d :: _ => default "" (d !! "content")
    | OtherMessage text :: _ => text
    | [] => ""
    end in
  app_print ("[LOG] OpenAI API call: model=" +:+ model +:+
             ", first_message=" +:+ repr (slice first_msg 0 100)) ;;
  ((λ w, (_real_create args kwargs, w)) : App Result).
End Logging.

(** ** The program, described *)

(** The line the debug log shows for a message. *)
Definition debug_line (m : message) : string :=
  "[" +:+ str_of_opt (m !! "role") +:+ "] " +:+
  slice (default "" (m !! "content")) 0 500 +:+ nl +:+ "---".

(** The agent whose replies a section is meant to show: its key in
    [_create_agents]. *)
Definition section_agent (s : section) : string :=
  match s with
  | MarketResearch => "market_researcher"
  | CompetitiveAnalysis => "competitor_scout"
  | ClarifiedIdea => "clarifier"
  | SWOTAnalysis => "swot_analyst"
  | StrategicFeedback => "feedback_agent"
  end.

(** The configuration an environment gives. *)
Definition config_of (env : gmap string string) : list (gmap string string) :=
  match env !! "OPENAI_API_KEY" with
  | Some key =>
      if str_truthy key then
        [ ({[ "model" := "gpt-4"; "api_key" := key ]} : gmap string string) ]
      else []
  | None => []
  end.

(** The conversation [validate_business_idea] starts, and how it ends. *)
Definition chat_of (isspace : ascii → bool)
    (initiate_chat :
       user_proxy → group_chat_manager → string → outcome (list message))
    (cfg : list (gmap string string)) (business_idea : string) :
    outcome (list message) :=
  let proxy := _create_user_proxy isspace cfg in
  initiate_chat proxy
    (GroupChatManager
       (GroupChat (ProxyParticipant proxy ::
                   (AgentParticipant <$> (_create_agents cfg business_idea).*2))
                  [] 50)
       cfg)
    (initial_message business_idea).

(** The name [save_report] gives a file when none is passed. *)
Definition default_filename (stamp : string) : string :=
  "business_validation_report_" +:+ stamp +:+ ".md".

(** A conversation engine that answers with one fixed transcript, one that
    fails, and a file system that refuses one name. *)
Definition sample_engine (proxy : user_proxy) (manager : group_chat_manager)
    (initial : string) : outcome (list message) :=
  Returns [msg "user" initial; msg "assistant" "MARKET SIZE: $1B"].

Definition failing_engine (proxy : user_proxy) (manager : group_chat_manager)
    (initial : string) : outcome (list message) :=
  Raises (OtherException "No API key").

Definition any_file (filename : string) : option exn := None.

Definition no_empty_name (filename : string) : option exn :=
  if String.eqb filename "" then
    Some (OtherException "[Errno 2] No such file or directory: ''")
  else None.

Definition sample_app_world (lines : list string) : app_world :=
  AppWorld ∅ ∅ lines [].

(** ** Facts about strings *)

#[local] Arguments String.append !_ _ / : simpl nomatch.

Lemma str_app_assoc (a b c : string) : (a +:+ b) +:+ c = a +:+ b +:+ c.
Proof. induction a as [|x a IH]; simpl; [done | by f_equal]. Qed.

Lemma str_length_app (a b : string) :
  String.length (a +:+ b) = (String.length a + String.length b)%nat.
Proof. induction a as [|x a IH]; simpl; [done | by f_equal]. Qed.

Lemma prefix_app (sub b : string) : String.prefix sub (sub +:+ b) = true.
Proof.
  induction sub as [|c sub IH]; simpl; [by destruct b |].
  destruct (ascii_dec c c); [done | congruence].
Qed.

Lemma prefix_split (sub s : string) :
  String.prefix sub s = true → ∃ b, s = sub +:+ b.
Proof.
  revert s. induction sub as [|c sub IH]; intros s H.
  - by exists s.
  - destruct s as [|d s]; [done |]. simpl in H.
    destruct (ascii_dec c d) as [->|]; [| done].
    destruct (IH _ H) as [b ->]. by exists b.
Qed.

Lemma occurs_at_0 (sub s : string) :
  occurs_at sub s 0 ↔ String.prefix sub s = true.
Proof.
  split.
  - intros ([|??] & b & -> & Hl); [| done]. simpl. apply prefix_app.
  - intros H. destruct (prefix_split _ _ H) as [b ->]. by exists "", b.
Qed.

Lemma occurs_at_S (sub : string) (c : ascii) (s : string) (p : nat) :
  occurs_at sub (String c s) (S p) ↔ occurs_at sub s p.
Proof.
  split.
  - intros ([|x a] & b & Heq & Hl); [done |].
    simpl in *. injection Heq as -> ->. exists a, b. split; [done | lia].
  - intros (a & b & -> & Hl). exists (String c a), b. simpl. by rewrite Hl.
Qed.

Lemma occurs_at_le (sub s : string) (p : nat) :
  occurs_at sub s p → (p + String.length sub ≤ String.length s)%nat.
Proof. intros (a & b & -> & <-). rewrite !str_length_app. lia. Qed.

Lemma occurs_at_empty (sub : string) (p : nat) :
  occurs_at sub "" p → sub = "" ∧ p = 0%nat.
Proof.
  intros (a & b & Heq & <-). destruct a; [| done].
  destruct sub; [done | done].
Qed.

(** [String.index] returns the lowest occurrence at or after its start. *)
Lemma index_cons_0 (sub : string) (c : ascii) (s : string) :
  String.index 0 sub (String c s) =
  if String.prefix sub (String c s) then Some 0%nat
  else S <$> String.index 0 sub s.
Proof. reflexivity. Qed.

Lemma index_cons_S (n : nat) (sub : string) (c : ascii) (s : string) :
  String.index (S n) sub (String c s) = S <$> String.index n sub s.
Proof. reflexivity. Qed.

Lemma index_Some (sub s : string) (n m : nat) :
  String.index n sub s = Some m → first_occ_from sub s n m.
Proof.
  revert n m. induction s as [|c s IH]; intros n m.
  - destruct n; [| done]. destruct sub; [| done].
    intros ?; simplify_eq/=. split; [lia |]. split; [by exists "", "" | lia].
  - destruct n as [|n].
    + rewrite index_cons_0. destruct (String.prefix sub (String c s)) eqn:Hp.
      * intros ?; simplify_eq. split; [lia |]. split; [by apply occurs_at_0 | lia].
      * destruct (String.index 0 sub s) as [k|] eqn:Hi; [| done].
        intros ?; simplify_eq/=. destruct (IH _ _ Hi) as (_ & Hocc & Hmin).
        split; [lia |]. split; [by apply occurs_at_S |].
        intros [|q] _ Hq.
        -- intros Ho%occurs_at_0. exact (eq_true_false_abs _ Ho Hp).
        -- rewrite occurs_at_S. apply Hmin; lia.
    + rewrite index_cons_S. destruct (String.index n sub s) as [k|] eqn:Hi; [| done].
      intros ?; simplify_eq/=. destruct (IH _ _ Hi) as (Hle & Hocc & Hmin).
      split; [lia |]. split; [by apply occurs_at_S |].
      intros [|q] Hnq Hq; [lia |].
      rewrite occurs_at_S. apply Hmin; lia.
Qed.

Lemma index_None (sub s : string) (n p : nat) :
  String.index n sub s = None → (n ≤ p)%nat → ¬ occurs_at sub s p.
Proof.
  revert n p. induction s as [|c s IH]; intros n p.
  - intros Hi Hle Hocc. apply occurs_at_empty in Hocc as [-> ->].
    by destruct n; [| lia].
  - destruct n as [|n].
    + rewrite index_cons_0. destruct (String.prefix sub (String c s)) eqn:Hp; [done |].
      destruct (String.index 0 sub s) as [k|] eqn:Hi; [done |].
      intros _ _. destruct p as [|p].
      * intros Ho%occurs_at_0. exact (eq_true_false_abs _ Ho Hp).
      * rewrite occurs_at_S. apply (IH 0%nat); [done | lia].
    + rewrite index_cons_S. destruct (String.index n sub s) as [k|] eqn:Hi; [done |].
      intros _ Hle. destruct p as [|p]; [lia |].
      rewrite occurs_at_S. apply (IH n); [done | lia].
Qed.

Lemma first_occ_from_unique (sub s : string) (n p q : nat) :
  first_occ_from sub s n p → first_occ_from sub s n q → p = q.
Proof.
  intros (Hp & Hop & Hmp) (Hq & Hoq & Hmq).
  destruct (Nat.lt_trichotomy p q) as [Hlt|[->|Hlt]]; [| done |].
  - by destruct (Hmq p).
  - by destruct (Hmp q).
Qed.

Lemma index_first_occ (sub s : string) (n p : nat) :
  first_occ_from sub s n p → String.index n sub s = Some p.
Proof.
  intros Hf. destruct (String.index n sub s) as [m|] eqn:Hi.
  - f_equal. eapply first_occ_from_unique; [by apply index_Some | done].
  - destruct Hf as (Hle & Hocc & _). by destruct (index_None _ _ _ _ Hi Hle).
Qed.

Lemma index_occurs (sub s : string) (n p : nat) :
  (n ≤ p)%nat → occurs_at sub s p →
  ∃ m, String.index n sub s = Some m ∧ (m ≤ p)%nat.
Proof.
  intros Hle Hocc. destruct (String.index n sub s) as [m|] eqn:Hi.
  - exists m. split; [done |].
    destruct (index_Some _ _ _ _ Hi) as (_ & _ & Hmin).
    destruct (decide (m ≤ p)%nat); [done |]. destruct (Hmin p); [done | lia | done].
  - by destruct (index_None _ _ _ _ Hi Hle).
Qed.

Lemma str_in_occurs (sub s : string) : str_in sub s = true ↔ occurs sub s.
Proof.
  unfold str_in. split.
  - destruct (String.index 0 sub s) as [m|] eqn:Hi; [| done].
    intros _. exists m. by apply index_Some in Hi as (_ & ? & _).
  - intros [p Hp]. destruct (index_occurs sub s 0 p) as (m & -> & _); [lia | done | done].
Qed.

Lemma str_in_false (sub s : string) : str_in sub s = false ↔ ¬ occurs sub s.
Proof.
  rewrite <- str_in_occurs. destruct (str_in sub s); naive_solver.
Qed.

Lemma substring_app (a r c : string) :
  String.substring (String.length a) (String.length r) (a +:+ r +:+ c) = r.
Proof.
  induction a as [|x a IH]; simpl; [| done].
  induction r as [|y r IHr]; simpl; [by destruct c | by rewrite IHr].
Qed.

(** Slicing between two in-range offsets is [String.substring]. *)
Lemma slice_substring (s : string) (i j : nat) :
  (i ≤ j)%nat → (j ≤ String.length s)%nat →
  slice s (Z.of_nat i) (Z.of_nat j) = String.substring i (j - i) s.
Proof.
  intros Hij Hj. unfold slice, slice_bound, len.
  destruct (Z.ltb_spec (Z.of_nat i) 0); [lia |].
  destruct (Z.ltb_spec (Z.of_nat j) 0); [lia |].
  rewrite !Z.min_l by lia. f_equal; lia.
Qed.

Lemma find_index (s sub : string) (n : nat) :
  find s sub (Z.of_nat n) =
  match String.index n sub s with Some i => Z.of_nat i | None => -1 end.
Proof.
  unfold find. destruct (Z.ltb_spec (Z.of_nat n) 0); [lia |].
  by rewrite Nat2Z.id.
Qed.

(** ** The scan and the most recent matching message *)

Lemma scan_cons (m : message) (ms : list message) (ps : string)
    (pe : option string) :
  scan (m :: ms) ps pe =
  if has_marker ps m then Some (matched (content m) ps pe) else scan ms ps pe.
Proof.
  unfold has_marker, is_assistant, content. simpl.
  destruct (bool_decide _); [| done]. by destruct (str_in _ _).
Qed.

Lemma scan_most_recent (msgs : list message) (ps : string) (pe : option string) :
  scan (reverse msgs) ps pe = lookup_marker msgs ps pe.
Proof.
  unfold lookup_marker, most_recent.
  induction msgs as [|m msgs IH] using rev_ind; [done |].
  rewrite reverse_snoc, scan_cons, List.filter_app. simpl.
  destruct (has_marker ps m).
  - by rewrite last_snoc.
  - by rewrite List.app_nil_r.
Qed.

(** ** What a match returns *)

Lemma str_truthy_ne (s : string) : str_truthy s = true ↔ s ≠ "".
Proof.
  unfold str_truthy. destruct (String.eqb_spec s ""); naive_solver.
Qed.

Lemma find_first_occ (c sub : string) (n p : nat) :
  first_occ_from sub c n p → find c sub (Z.of_nat n) = Z.of_nat p.
Proof. intros H. by rewrite find_index, (index_first_occ _ _ _ _ H). Qed.

Lemma find_none (c sub : string) (n : nat) :
  (∀ p, (n ≤ p)%nat → ¬ occurs_at sub c p) → find c sub (Z.of_nat n) = -1.
Proof.
  intros H. rewrite find_index.
  destruct (String.index n sub c) as [m|] eqn:Hi; [| done].
  apply index_Some in Hi as (Hle & Hocc & _). by destruct (H m).
Qed.

Lemma matched_no_end (c ps : string) (pe : option string) :
  opt_truthy pe = false → matched c ps pe = c.
Proof. unfold matched. by intros ->. Qed.

Lemma matched_bounded (c ps pe : string) (i j : nat) :
  pe ≠ "" → first_occ ps c i → first_occ_from pe c i j →
  matched c ps (Some pe) =
  String.substring i (j + String.length pe - i) c.
Proof.
  intros Hpe Hi Hj. unfold matched. simpl.
  apply str_truthy_ne in Hpe as ->.
  change 0 with (Z.of_nat 0).
  rewrite (find_first_occ _ _ _ _ Hi), (find_first_occ _ _ _ _ Hj).
  rewrite bool_decide_true by lia.
  destruct Hj as (Hle & Hocc%occurs_at_le & _).
  unfold len. rewrite <- Nat2Z.inj_add. by apply slice_substring; lia.
Qed.

Lemma matched_unbounded (c ps pe : string) (i : nat) :
  first_occ ps c i → (∀ p, (i ≤ p)%nat → ¬ occurs_at pe c p) →
  matched c ps (Some pe) = c.
Proof.
  intros Hi Hno. unfold matched. simpl.
  destruct (str_truthy pe); [| done].
  change 0 with (Z.of_nat 0).
  rewrite (find_first_occ _ _ _ _ Hi), (find_none _ _ _ Hno).
  by rewrite bool_decide_false by lia.
Qed.

Lemma occurs_first_occ (sub c : string) :
  occurs sub c → ∃ i, first_occ sub c i.
Proof.
  intros [p Hp]. destruct (index_occurs sub c 0 p) as (m & Hm & _); [lia | done |].
  exists m. by apply index_Some.
Qed.

Lemma substring_length (c : string) (i k : nat) :
  (i + k ≤ String.length c)%nat →
  String.length (String.substring i k c) = k.
Proof.
  revert i k. induction c as [|x c IH]; intros i k H; simpl in H.
  - assert (i = 0%nat ∧ k = 0%nat) as [-> ->] by lia. done.
  - destruct i as [|i]; simpl.
    + destruct k as [|k]; [done |]. simpl. f_equal. apply IH. lia.
    + apply IH. lia.
Qed.

(** A match on a non-empty start marker is never the empty text, so it is
    truthy. *)
Lemma matched_truthy (c ps : string) (pe : option string) :
  ps ≠ "" → occurs ps c → str_truthy (matched c ps pe) = true.
Proof.
  intros Hps Hocc. apply str_truthy_ne.
  assert (c ≠ "") as Hc.
  { intros ->. destruct Hocc as [p [Hp _]%occurs_at_empty]. done. }
  destruct (opt_truthy pe) eqn:Hpe; [| by rewrite matched_no_end].
  destruct pe as [pe|]; [| done]. simpl in Hpe. apply str_truthy_ne in Hpe.
  destruct (occurs_first_occ _ _ Hocc) as [i Hi].
  destruct (String.index i pe c) as [j|] eqn:Hj.
  - apply index_Some in Hj.
    rewrite (matched_bounded _ _ _ _ _ Hpe Hi Hj).
    destruct Hj as (Hle & Hle'%occurs_at_le & _).
    intros Heq. apply (f_equal String.length) in Heq.
    rewrite substring_length in Heq by lia.
    destruct pe; [done |]. simpl in *. lia.
  - rewrite (matched_unbounded _ _ _ i); [done | done |].
    intros p Hp. by apply (index_None _ _ _ _ Hj).
Qed.

Lemma most_recent_has_marker (marker : string) (msgs : list message)
    (m : message) :
  most_recent marker msgs = Some m → m ∈ msgs ∧ has_marker marker m = true.
Proof.
  unfold most_recent. intros H.
  assert (In m (List.filter (has_marker marker) msgs)) as Hin.
  { apply list_elem_of_In. by apply last_Some_elem_of. }
  apply List.filter_In in Hin as [Hin Hm]. by apply list_elem_of_In in Hin.
Qed.

Lemma has_marker_occurs (marker : string) (m : message) :
  has_marker marker m = true ↔
  is_assistant m = true ∧ occurs marker (content m).
Proof.
  unfold has_marker. rewrite andb_true_iff. by rewrite str_in_occurs.
Qed.

Lemma lookup_marker_truthy (msgs : list message) (ps : string)
    (pe : option string) :
  ps ≠ "" → opt_truthy (lookup_marker msgs ps pe) =
            bool_decide (is_Some (lookup_marker msgs ps pe)).
Proof.
  intros Hps. unfold lookup_marker.
  destruct (most_recent ps msgs) as [m|] eqn:Hm; simpl; [| done].
  apply most_recent_has_marker in Hm as [_ [_ Hocc]%has_marker_occurs].
  by rewrite matched_truthy.
Qed.

(** The most recent match, by position in the transcript. *)
Lemma most_recent_split (marker : string) (pre post : list message)
    (m : message) :
  has_marker marker m = true →
  Forall (λ m', has_marker marker m' = false) post →
  most_recent marker (pre ++ m :: post) = Some m.
Proof.
  intros Hm Hpost. unfold most_recent.
  rewrite List.filter_app. simpl. rewrite Hm.
  replace (List.filter (has_marker marker) post) with (@nil message).
  - by rewrite last_snoc.
  - symmetry. induction Hpost as [|x l Hx _ IH]; simpl; [done |]. by rewrite Hx.
Qed.

Lemma most_recent_none (marker : string) (msgs : list message) :
  Forall (λ m', has_marker marker m' = false) msgs →
  most_recent marker msgs = None.
Proof.
  intros H. unfold most_recent.
  replace (List.filter (has_marker marker) msgs) with (@nil message); [done |].
  symmetry. induction H as [|x l Hx _ IH]; simpl; [done |]. by rewrite Hx.
Qed.

Lemma most_recent_assistants (marker : string) (msgs : list message) :
  most_recent marker (List.filter is_assistant msgs) = most_recent marker msgs.
Proof.
  unfold most_recent. f_equal.
  induction msgs as [|m msgs IH]; simpl; [done |].
  unfold has_marker at 2. destruct (is_assistant m) eqn:Ha; simpl.
  - unfold has_marker at 1. rewrite Ha. simpl. by rewrite IH.
  - done.
Qed.

(** ** Running the extractor *)

Lemma bind_run {A B : Type} (c : M A) (k : A → M B) (w : world) :
  (c ≫= k) w = k (c w).1 (c w).2.
Proof. unfold mbind, M_bind. by destruct (c w). Qed.

Lemma find_agent_response_run (ps : string) (pe : option string) (w : world) :
  find_agent_response ps pe w =
  (lookup_marker (w_messages w) ps pe,
   World (w_messages w) (w_searches w ++ [(ps, pe)]) (w_stdout w)).
Proof.
  unfold find_agent_response. rewrite !bind_run. simpl.
  by rewrite scan_most_recent.
Qed.

Lemma py_or_run (a : option string) (c : M (option string)) (w : world) :
  py_or a c w = if opt_truthy a then (a, w) else c w.
Proof. unfold py_or. by destruct (opt_truthy a). Qed.

Lemma read_only_ret {A : Type} (x : A) : read_only (mret x).
Proof. by intros w. Qed.

Lemma read_only_bind {A B : Type} (c : M A) (k : A → M B) :
  read_only c → (∀ a, read_only (k a)) → read_only (c ≫= k).
Proof. intros Hc Hk w. by rewrite bind_run, Hk, Hc. Qed.

Lemma read_only_read_messages : read_only read_messages.
Proof. by intros w. Qed.

Lemma read_only_log_search (ps : string) (pe : option string) :
  read_only (log_search ps pe).
Proof. by intros w. Qed.

Lemma read_only_print (line : string) : read_only (print line).
Proof. by intros w. Qed.

Lemma read_only_for_each {A : Type} (xs : list A) (body : A → M unit) :
  (∀ x, read_only (body x)) → read_only (for_each xs body).
Proof.
  intros Hb. induction xs as [|x xs IH]; simpl.
  - apply read_only_ret.
  - apply read_only_bind; [apply Hb | by intros _].
Qed.

Lemma read_only_find_agent_response (ps : string) (pe : option string) :
  read_only (find_agent_response ps pe).
Proof. intros w. by rewrite find_agent_response_run. Qed.

Lemma read_only_py_or (a : option string) (c : M (option string)) :
  read_only c → read_only (py_or a c).
Proof.
  intros Hc. unfold py_or. destruct (opt_truthy a); [apply read_only_ret | done].
Qed.

Create HintDb frame.
#[local] Hint Resolve read_only_ret read_only_read_messages
  read_only_log_search read_only_print read_only_find_agent_response
  read_only_py_or : frame.

Ltac frame :=
  repeat first
    [ progress intros
    | apply read_only_bind
    | apply read_only_for_each
    | solve [eauto with frame]
    | match goal with |- read_only (if ?b then _ else _) => destruct b end ].

Lemma read_only_generate_final_report (business_idea now : string)
    (debug : bool) :
  read_only (_generate_final_report business_idea now debug).
Proof. unfold _generate_final_report. frame. Qed.

Lemma silent_ret {A : Type} (x : A) : silent (mret x).
Proof. by intros w. Qed.

Lemma silent_bind {A B : Type} (c : M A) (k : A → M B) :
  silent c → (∀ a, silent (k a)) → silent (c ≫= k).
Proof.
  intros Hc Hk w. rewrite bind_run.
  destruct (Hk (c w).1 (c w).2) as [-> ->]. apply Hc.
Qed.

Lemma silent_print (line : string) : silent (print line).
Proof. by intros w. Qed.

Lemma silent_for_each {A : Type} (xs : list A) (body : A → M unit) :
  (∀ x, silent (body x)) → silent (for_each xs body).
Proof.
  intros Hb. induction xs as [|x xs IH]; simpl.
  - apply silent_ret.
  - apply silent_bind; [apply Hb | by intros _].
Qed.

Lemma py_or_find_run (a : option string) (f : string) (w : world) :
  py_or a (find_agent_response f None) w =
  (if opt_truthy a then a else lookup_marker (w_messages w) f None,
   World (w_messages w)
         (w_searches w ++ if opt_truthy a then [] else [(f, None)])
         (w_stdout w)).
Proof.
  rewrite py_or_run, find_agent_response_run.
  destruct (opt_truthy a); [| done]. rewrite List.app_nil_r. by destruct w.
Qed.

(** The value the code holds for a section, with Python's truthiness
    tests, is the section's value. *)
Lemma section_value_code (msgs : list message) (s : section) :
  section_value msgs s =
  let a := lookup_marker msgs (primary_marker s) (end_marker s) in
  match fallback_marker s with
  | Some f => if opt_truthy a then a else lookup_marker msgs f None
  | None => a
  end.
Proof.
  unfold section_value. cbv zeta.
  rewrite lookup_marker_truthy by (by destruct s).
  destruct (lookup_marker msgs (primary_marker s) (end_marker s)) as [v|];
    simpl; by destruct (fallback_marker s).
Qed.

Lemma section_value_truthy (msgs : list message) (s : section) :
  opt_truthy (section_value msgs s) =
  bool_decide (is_Some (section_value msgs s)).
Proof.
  unfold section_value.
  pose proof (lookup_marker_truthy msgs (primary_marker s) (end_marker s)) as H1.
  destruct (lookup_marker msgs (primary_marker s) (end_marker s)) as [v|].
  - apply H1. by destruct s.
  - destruct s; simpl; try done; by apply lookup_marker_truthy.
Qed.

Lemma section_text_code (msgs : list message) (s : section) :
  section_text msgs s =
  let v := section_value msgs s in
  if opt_truthy v then nl +:+ heading s +:+ nl +:+ default "" v +:+ nl
  else match placeholder s with
       | Some p => nl +:+ heading s +:+ nl +:+ p +:+ nl
       | None => ""
       end.
Proof.
  unfold section_text. cbv zeta. rewrite section_value_truthy.
  by destruct (section_value msgs s).
Qed.

Lemma section_searches_code (msgs : list message) (s : section) :
  section_searches msgs s =
  (primary_marker s, end_marker s) ::
  match fallback_marker s with
  | Some f =>
      if opt_truthy (lookup_marker msgs (primary_marker s) (end_marker s))
      then [] else [(f, None)]
  | None => []
  end.
Proof.
  unfold section_searches.
  rewrite lookup_marker_truthy by (by destruct s).
  destruct (lookup_marker msgs (primary_marker s) (end_marker s)) as [v|];
    simpl; by destruct (fallback_marker s).
Qed.

Ltac run_step :=
  rewrite bind_run, ?py_or_find_run, ?find_agent_response_run;
  cbn [fst snd w_messages w_searches w_stdout].

(** The report is its header, the five sections in their fixed order and
    the footer; the searches performed are those of the five sections, one
    section after the other. *)
Lemma report_sections (business_idea now : string) (debug : bool) (w : world) :
  let msgs := w_messages w in
  observed (_generate_final_report business_idea now debug w) =
  (report_header business_idea now +:+
     section_text msgs MarketResearch +:+
     section_text msgs CompetitiveAnalysis +:+
     section_text msgs ClarifiedIdea +:+
     section_text msgs SWOTAnalysis +:+
     section_text msgs StrategicFeedback +:+
     report_footer,
   w_searches w ++
     section_searches msgs MarketResearch ++
     section_searches msgs CompetitiveAnalysis ++
     section_searches msgs ClarifiedIdea ++
     section_searches msgs SWOTAnalysis ++
     section_searches msgs StrategicFeedback).
Proof.
  intros msgs. unfold _generate_final_report.
  rewrite bind_run.
  match goal with |- context [(?c w).2] =>
    assert (silent c) as Hs; [| destruct (Hs w) as [Hm Hq]; set (w1 := (c w).2) in * ]
  end.
  { destruct debug; [| apply silent_ret].
    apply silent_bind; [apply silent_print | intros _].
    apply silent_bind; [by intros ? | intros ms].
    apply silent_bind; [| intros _; apply silent_print].
    apply silent_for_each. intros m. apply silent_print. }
  clearbody w1. destruct w1 as [ms1 q1 o1]. simpl in Hm, Hq. subst ms1 q1.
  fold msgs. clear Hs.
  do 8 run_step. cbv zeta. unfold observed. cbn [mret M_ret fst snd w_searches].
  rewrite !section_text_code, !section_searches_code, !section_value_code.
  cbv zeta.
  cbn [primary_marker fallback_marker end_marker heading placeholder].
  fold msgs. f_equal.
  - repeat match goal with
    | |- context [if opt_truthy ?a then ?a else ?b] =>
        generalize (if opt_truthy a then a else b); intro
    end.
    repeat match goal with
    | |- context [opt_truthy ?a] => destruct (opt_truthy a)
    end; rewrite ?str_app_assoc; reflexivity.
  - repeat match goal with
    | |- context [opt_truthy ?a] => destruct (opt_truthy a)
    end; rewrite <- ?(assoc_L (++)); reflexivity.
Qed.

(** ** Selection of the message *)

Lemma has_marker_matches (marker : string) (m : message) :
  has_marker marker m = true ↔ matches marker m.
Proof.
  rewrite has_marker_occurs. unfold matches, is_assistant.
  by rewrite bool_decide_eq_true.
Qed.

Lemma has_marker_not_matches (marker : string) (m : message) :
  has_marker marker m = false ↔ ¬ matches marker m.
Proof.
  rewrite <- has_marker_matches. destruct (has_marker marker m); naive_solver.
Qed.

Lemma latest_match_most_recent (marker : string) (msgs : list message)
    (m : message) :
  latest_match marker msgs m → most_recent marker msgs = Some m.
Proof.
  intros (pre & post & -> & Hm & Hpost).
  apply most_recent_split; [by apply has_marker_matches |].
  apply Forall_forall. intros m' Hin. by apply has_marker_not_matches, Hpost.
Qed.

Lemma no_match_most_recent (marker : string) (msgs : list message) :
  (∀ m, m ∈ msgs → ¬ matches marker m) → most_recent marker msgs = None.
Proof.
  intros H. apply most_recent_none, Forall_forall.
  intros m Hin. by apply has_marker_not_matches, H.
Qed.

Lemma lookup_marker_latest (marker : string) (end_ : option string)
    (msgs : list message) (m : message) :
  latest_match marker msgs m →
  lookup_marker msgs marker end_ = Some (matched (content m) marker end_).
Proof.
  intros H. unfold lookup_marker. by rewrite (latest_match_most_recent _ _ _ H).
Qed.

Lemma lookup_marker_none (marker : string) (end_ : option string)
    (msgs : list message) :
  (∀ m, m ∈ msgs → ¬ matches marker m) → lookup_marker msgs marker end_ = None.
Proof.
  intros H. unfold lookup_marker. by rewrite no_match_most_recent.
Qed.

(** Some message matches exactly when there is a most recent one. *)
Lemma exists_latest_match (marker : string) (msgs : list message) :
  (∃ m, m ∈ msgs ∧ matches marker m) → ∃ m, latest_match marker msgs m.
Proof.
  intros (m0 & Hin & Hm0).
  destruct (most_recent marker msgs) as [m|] eqn:Hmr.
  - exists m. unfold most_recent in Hmr.
    induction msgs as [|x msgs IH] using rev_ind; [done |].
    rewrite List.filter_app in Hmr. simpl in Hmr.
    destruct (has_marker marker x) eqn:Hx.
    + rewrite last_snoc in Hmr. simplify_eq.
      exists msgs, []. split; [done |].
      split; [by apply has_marker_matches |]. intros m' Hm'. by apply elem_of_nil in Hm'.
    + rewrite List.app_nil_r in Hmr.
      apply elem_of_app in Hin as [Hin | Hin%list_elem_of_singleton].
      * destruct (IH Hin Hmr) as (pre & post & -> & Hm & Hpost).
        exists pre, (post ++ [x]). split; [by rewrite <- app_assoc |].
        split; [done |]. intros m' [Hm'|Hm'%list_elem_of_singleton]%elem_of_app.
        -- by apply Hpost.
        -- subst m'. by apply has_marker_not_matches.
      * subst x. apply has_marker_matches in Hm0. congruence.
  - exfalso. unfold most_recent in Hmr.
    assert (In m0 (List.filter (has_marker marker) msgs)) as Hf.
    { apply List.filter_In. split; [by apply list_elem_of_In |].
      by apply has_marker_matches. }
    destruct (List.filter (has_marker marker) msgs) as [|y l] using rev_ind;
      [done |].
    by rewrite last_snoc in Hmr.
Qed.

(** ** Splitting a text at its markers *)

Lemma str_app_split (u v x y : string) :
  u +:+ v = x +:+ y → (String.length u ≤ String.length x)%nat →
  ∃ t, x = u +:+ t ∧ v = t +:+ y.
Proof.
  revert x. induction u as [|c u IH]; intros x Heq Hle; simpl in *.
  - by exists x.
  - destruct x as [|d x]; simpl in *; [lia |].
    injection Heq as -> Heq. destruct (IH x Heq) as (t & -> & ->); [lia |].
    by exists t.
Qed.

Lemma occurs_at_get (sub c : string) (p k : nat) :
  occurs_at sub c p → (k < String.length sub)%nat →
  String.get (p + k) c = String.get k sub.
Proof.
  intros (a & b & -> & <-) Hk.
  rewrite Nat.add_comm, <- String.append_correct2.
  symmetry. by apply String.append_correct1.
Qed.

(** Two markers cannot overlap when the first character of the second does
    not occur in the first. *)
Lemma occurs_after (s e c : string) (x : ascii) (i j : nat) :
  String.get 0 e = Some x →
  (∀ k, (k < String.length s)%nat → String.get k s ≠ Some x) →
  occurs_at s c i → occurs_at e c j → (i ≤ j)%nat →
  (i + String.length s ≤ j)%nat.
Proof.
  intros He Hs Hi Hj Hle.
  destruct (decide (i + String.length s ≤ j)%nat) as [|Hlt]; [done |].
  exfalso. apply (Hs (j - i)%nat); [lia |].
  rewrite <- (occurs_at_get _ _ _ _ Hi) by lia.
  replace (i + (j - i))%nat with (j + 0)%nat by lia.
  rewrite (occurs_at_get _ _ _ _ Hj); [done |].
  destruct e; [done | simpl; lia].
Qed.

(** The text between the first start marker and the first end marker at or
    after it, both included, when the two cannot overlap. *)
Lemma matched_between (c s e : string) (x : ascii) :
  e ≠ "" → String.get 0 e = Some x →
  (∀ k, (k < String.length s)%nat → String.get k s ≠ Some x) →
  (∃ a b d, c = a +:+ s +:+ b +:+ e +:+ d) →
  ∃ a' b' d',
    c = a' +:+ s +:+ b' +:+ e +:+ d' ∧
    first_occ s c (String.length a') ∧
    first_occ_from e c (String.length a')
      (String.length (a' +:+ s +:+ b')) ∧
    matched c s (Some e) = s +:+ b' +:+ e.
Proof.
  intros Hne He Hs (a & b & d & Hc).
  assert (occurs_at s c (String.length a)) as Hocc by (by exists a, (b +:+ e +:+ d)).
  assert (occurs_at e c (String.length (a +:+ s +:+ b))) as Hocce.
  { exists (a +:+ s +:+ b), d. by rewrite !str_app_assoc. }
  destruct (index_occurs s c 0 _ ltac:(lia) Hocc) as (i & Hi%index_Some & Hia).
  assert (i ≤ String.length (a +:+ s +:+ b))%nat as Hle
    by (rewrite str_length_app; lia).
  destruct (index_occurs e c i _ Hle Hocce) as (j & Hj%index_Some & _).
  pose proof (matched_bounded c s e i j Hne Hi Hj) as Hm.
  destruct Hi as (Hi0 & Hiocc & Himin). destruct Hj as (Hij & Hjocc & Hjmin).
  pose proof (occurs_after s e c x i j He Hs Hiocc Hjocc Hij) as Hsep.
  destruct Hiocc as (a' & rest & Hc' & Hla').
  destruct Hjocc as (pre & d' & Hc'' & Hlpre).
  assert (∃ b', pre = (a' +:+ s) +:+ b') as [b' ->].
  { rewrite Hc', <- str_app_assoc in Hc''.
    destruct (str_app_split _ _ _ _ Hc'') as (t & -> & _); [| by exists t].
    rewrite str_length_app. lia. }
  assert (c = a' +:+ s +:+ b' +:+ e +:+ d') as Hc3
    by (by rewrite Hc'', !str_app_assoc).
  rewrite str_app_assoc in Hlpre. subst i j. clear Hc''.
  exists a', b', d'.
  split; [done |]. split.
  { split; [done |]. split; [by exists a', rest | done]. }
  split.
  { split; [done |]. split; [| done].
    exists (a' +:+ s +:+ b'), d'. by rewrite !str_app_assoc. }
  rewrite Hm. rewrite Hc3 at 1.
  replace (String.length (a' +:+ s +:+ b') + String.length e - String.length a')%nat
    with (String.length (s +:+ b' +:+ e)) by (rewrite !str_length_app; lia).
  replace (a' +:+ s +:+ b' +:+ e +:+ d')
    with (a' +:+ (s +:+ b' +:+ e) +:+ d') by (by rewrite !str_app_assoc).
  apply substring_app.
Qed.

(** ** The extractor: which message is used *)

(** C4: for every transcript and every pattern, [find_agent_response]
    returns the match taken from the most recent message whose role is
    ["assistant"] and whose content contains the start marker, and [None]
    when there is no such message; messages with any other role play no
    part: dropping them all from the transcript leaves the result
    unchanged, whatever their content. *)
Theorem find_agent_response_latest_assistant (w : world) (ps : string)
    (pe : option string) :
  let msgs := w_messages w in
  let found := (find_agent_response ps pe w).1 in
  (∀ m, latest_match ps msgs m → found = Some (matched (content m) ps pe)) ∧
  ((∃ m, m ∈ msgs ∧ matches ps m) → ∃ m, latest_match ps msgs m) ∧
  ((∀ m, m ∈ msgs → ¬ matches ps m) → found = None) ∧
  found = (find_agent_response ps pe
             (World (List.filter is_assistant msgs) (w_searches w)
                    (w_stdout w))).1.
Proof.
  intros msgs found. subst found. rewrite !find_agent_response_run. simpl.
  fold msgs. repeat split.
  - intros m Hm. by apply lookup_marker_latest.
  - apply exists_latest_match.
  - apply lookup_marker_none.
  - unfold lookup_marker. by rewrite most_recent_assistants.
Qed.

Lemma find_agent_response_latest_assistant_witness :
  let w := transcript_of [msg "assistant" "MARKET SIZE: old";
                          msg "assistant" "MARKET SIZE: new";
                          msg "user" "MARKET SIZE: from the user"] in
  latest_match "MARKET SIZE:" (w_messages w) (msg "assistant" "MARKET SIZE: new") ∧
  (find_agent_response "MARKET SIZE:" None w).1 = Some "MARKET SIZE: new".
Proof.
  intros w.
  assert (latest_match "MARKET SIZE:" (w_messages w)
            (msg "assistant" "MARKET SIZE: new")) as H.
  { exists [msg "assistant" "MARKET SIZE: old"],
           [msg "user" "MARKET SIZE: from the user"].
    split; [reflexivity |]. split.
    - split; [reflexivity |]. apply str_in_occurs. reflexivity.
    - intros m' ->%list_elem_of_singleton [Hrole _]. discriminate Hrole. }
  split; [exact H |].
  exact (proj1 (find_agent_response_latest_assistant w "MARKET SIZE:" None) _ H).
Defined.

(** ** The extractor: what is cut out of the message *)

(** C9: in a message that contains the start marker (once or several
    times), extraction with an end marker anchors at the first occurrence
    of the start marker, and the end marker is searched from that index
    on: the result runs from there through the first end marker at or
    after it, whatever occurs before; and when the end marker occurs
    nowhere at or after the anchor (for instance only before it), the
    whole message content is returned. *)
Theorem end_marker_search_anchored (c ps pe : string) (i : nat) :
  pe ≠ "" → first_occ ps c i →
  find c ps 0 = Z.of_nat i ∧
  (∀ j, first_occ_from pe c i j →
     find c pe (Z.of_nat i) = Z.of_nat j ∧
     matched c ps (Some pe) =
       String.substring i (j + String.length pe - i) c) ∧
  ((∀ p, (i ≤ p)%nat → ¬ occurs_at pe c p) →
     find c pe (Z.of_nat i) = -1 ∧ matched c ps (Some pe) = c) ∧
  (∀ w m, latest_match ps (w_messages w) m → content m = c →
     (find_agent_response ps (Some pe) w).1 = Some (matched c ps (Some pe))).
Proof.
  intros Hpe Hi. split; [| split; [| split]].
  - change 0 with (Z.of_nat 0). by apply find_first_occ.
  - intros j Hj. split; [by apply find_first_occ | by apply matched_bounded].
  - intros Hno. split; [by apply find_none | by apply (matched_unbounded _ _ _ i)].
  - intros w m Hm <-. rewrite find_agent_response_run. simpl.
    by apply lookup_marker_latest.
Qed.

Lemma end_marker_search_anchored_witness :
  matched "END early. BEGIN one BEGIN two END late END" "BEGIN" (Some "END") =
    "BEGIN one BEGIN two END" ∧
  matched "END early. BEGIN one BEGIN two" "BEGIN" (Some "END") =
    "END early. BEGIN one BEGIN two".
Proof.
  split.
  - destruct (end_marker_search_anchored
                "END early. BEGIN one BEGIN two END late END" "BEGIN" "END" 11)
      as (_ & H & _); [done | by apply index_Some |].
    destruct (H 31%nat) as [_ ->]; [by apply index_Some | reflexivity].
  - destruct (end_marker_search_anchored
                "END early. BEGIN one BEGIN two" "BEGIN" "END" 11)
      as (_ & _ & H & _); [done | by apply index_Some |].
    apply H. intros p Hp. by apply (index_None _ _ 11).
Defined.

(** C3: for every assistant message whose text contains ["CLARIFIED IDEA:"]
    and, later, ["BUSINESS MODEL:"], the clarified-idea extraction is
    exactly the part of that message from the first ["CLARIFIED IDEA:"]
    through the first ["BUSINESS MODEL:"] after it, end marker included;
    that is what [find_agent_response] returns when this message is the
    one the scan selects. *)
Theorem clarified_idea_section (c a b d : string) :
  c = a +:+ "CLARIFIED IDEA:" +:+ b +:+ "BUSINESS MODEL:" +:+ d →
  ∃ a' b' d',
    c = a' +:+ "CLARIFIED IDEA:" +:+ b' +:+ "BUSINESS MODEL:" +:+ d' ∧
    first_occ "CLARIFIED IDEA:" c (String.length a') ∧
    first_occ_from "BUSINESS MODEL:" c (String.length a')
      (String.length (a' +:+ "CLARIFIED IDEA:" +:+ b')) ∧
    matched c "CLARIFIED IDEA:" (Some "BUSINESS MODEL:") =
      "CLARIFIED IDEA:" +:+ b' +:+ "BUSINESS MODEL:" ∧
    ∀ w m, latest_match "CLARIFIED IDEA:" (w_messages w) m → content m = c →
      (find_agent_response "CLARIFIED IDEA:" (Some "BUSINESS MODEL:") w).1 =
      Some ("CLARIFIED IDEA:" +:+ b' +:+ "BUSINESS MODEL:").
Proof.
  intros Hc.
  destruct (matched_between c "CLARIFIED IDEA:" "BUSINESS MODEL:" "B")
    as (a' & b' & d' & Hc' & Hs & He & Hm); [done | done | | by eauto |].
  { intros k Hk. simpl in Hk. do 15 (destruct k as [|k]; [done |]). lia. }
  exists a', b', d'. repeat split; try done; try apply Hs; try apply He.
  intros w m Hlm <-. rewrite find_agent_response_run. simpl.
  by rewrite (lookup_marker_latest _ _ _ _ Hlm), Hm.
Qed.

Lemma clarified_idea_section_witness :
  let c := "Sure. CLARIFIED IDEA: a BUSINESS MODEL: b BUSINESS MODEL: c" in
  matched c "CLARIFIED IDEA:" (Some "BUSINESS MODEL:") =
    "CLARIFIED IDEA: a BUSINESS MODEL:" ∧
  (find_agent_response "CLARIFIED IDEA:" (Some "BUSINESS MODEL:")
     (transcript_of [msg "assistant" c; msg "user" "thanks"])).1 =
    Some "CLARIFIED IDEA: a BUSINESS MODEL:".
Proof.
  intros c.
  destruct (clarified_idea_section c "Sure. " " a " " b BUSINESS MODEL: c")
    as (a' & b' & d' & _ & _ & _ & Hm & Hf); [reflexivity |].
  assert ("CLARIFIED IDEA:" +:+ b' +:+ "BUSINESS MODEL:" =
          "CLARIFIED IDEA: a BUSINESS MODEL:") as Hb by (by rewrite <- Hm).
  split; [by rewrite Hm |].
  rewrite <- Hb. apply (Hf _ (msg "assistant" c)); [| reflexivity].
  exists [], [msg "user" "thanks"]. split; [reflexivity |]. split.
  - split; [reflexivity |]. apply str_in_occurs. reflexivity.
  - intros m' ->%list_elem_of_singleton [Hrole _]. discriminate Hrole.
Defined.

(** C2, as the code has it: when the most recent assistant message that
    contains ["STRATEGIC FEEDBACK:"] has no ["TERMINATE"] at or after the
    first occurrence of that start marker, the extracted feedback is the
    entire content of that message, text before the start marker
    included. *)
Theorem feedback_without_terminate (w : world) (m : message) (i : nat) :
  latest_match "STRATEGIC FEEDBACK:" (w_messages w) m →
  first_occ "STRATEGIC FEEDBACK:" (content m) i →
  (∀ p, (i ≤ p)%nat → ¬ occurs_at "TERMINATE" (content m) p) →
  (find_agent_response "STRATEGIC FEEDBACK:" (Some "TERMINATE") w).1 =
  Some (content m).
Proof.
  intros Hm Hi Hno. rewrite find_agent_response_run. simpl.
  rewrite (lookup_marker_latest _ _ _ _ Hm).
  by rewrite (matched_unbounded _ _ _ i).
Qed.

Lemma feedback_without_terminate_witness :
  (find_agent_response "STRATEGIC FEEDBACK:" (Some "TERMINATE")
     (transcript_of
        [msg "assistant" "TERMINATE? Not yet. STRATEGIC FEEDBACK: keep going"])).1 =
  Some "TERMINATE? Not yet. STRATEGIC FEEDBACK: keep going".
Proof.
  apply (feedback_without_terminate _
           (msg "assistant" "TERMINATE? Not yet. STRATEGIC FEEDBACK: keep going")
           20).
  - exists [], []. split; [reflexivity |]. split.
    + split; [reflexivity |]. apply str_in_occurs. reflexivity.
    + intros m' Hm'. by apply elem_of_nil in Hm'.
  - by apply index_Some.
  - intros p Hp. by apply (index_None _ _ 20).
Defined.

(** C2 as stated fails: the start marker is present, the end marker is
    not, and the extraction is the whole message, not the remainder that
    starts at the start marker. *)
Lemma feedback_is_not_the_remainder :
  let c := "Intro. STRATEGIC FEEDBACK: keep going" in
  let w := transcript_of [msg "assistant" c] in
  str_in "STRATEGIC FEEDBACK:" c = true ∧
  find c "TERMINATE" (find c "STRATEGIC FEEDBACK:" 0) = -1 ∧
  slice c (find c "STRATEGIC FEEDBACK:" 0) (len c) =
    "STRATEGIC FEEDBACK: keep going" ∧
  (find_agent_response "STRATEGIC FEEDBACK:" (Some "TERMINATE") w).1 = Some c ∧
  (find_agent_response "STRATEGIC FEEDBACK:" (Some "TERMINATE") w).1 ≠
    Some "STRATEGIC FEEDBACK: keep going".
Proof. vm_compute. repeat split; congruence. Qed.

(** ** The assembled report *)

Lemma section_absent_value (msgs : list message) (s : section) :
  section_absent msgs s → section_value msgs s = None.
Proof.
  intros H. unfold section_value.
  rewrite lookup_marker_none by (intros m Hin [Hr Ho]; apply (H m); [done | by apply bool_decide_eq_true | done]).
  destruct (fallback_marker s) as [f|] eqn:Hf; simpl; [| done].
  apply lookup_marker_none. intros m Hin [Hr Ho].
  destruct (H m Hin) as [_ Hfb]; [by apply bool_decide_eq_true |].
  by apply (Hfb f).
Qed.

(** C1, as the code has it: the report is its header, the five section
    texts in order, and the footer; a market research or competitive
    analysis section none of whose start markers occurs in an assistant
    message appears as its heading followed by its fixed
    "(No … output found.)" line; a clarified idea, SWOT analysis or
    strategic feedback section whose markers are absent adds nothing to
    the report, neither heading nor placeholder. The generator is a total
    function: no input makes it fail. *)
Theorem missing_sections_report (business_idea now : string) (debug : bool)
    (w : world) :
  let msgs := w_messages w in
  let report := (_generate_final_report business_idea now debug w).1 in
  report = report_header business_idea now +:+
           section_text msgs MarketResearch +:+
           section_text msgs CompetitiveAnalysis +:+
           section_text msgs ClarifiedIdea +:+
           section_text msgs SWOTAnalysis +:+
           section_text msgs StrategicFeedback +:+
           report_footer ∧
  (section_absent msgs MarketResearch →
     section_text msgs MarketResearch =
     nl +:+ "### Market Research" +:+ nl +:+
     "(No MarketResearcher output found.)" +:+ nl) ∧
  (section_absent msgs CompetitiveAnalysis →
     section_text msgs CompetitiveAnalysis =
     nl +:+ "### Competitive Analysis" +:+ nl +:+
     "(No CompetitorScout output found.)" +:+ nl) ∧
  (∀ s, s = ClarifiedIdea ∨ s = SWOTAnalysis ∨ s = StrategicFeedback →
     section_absent msgs s → section_text msgs s = "").
Proof.
  intros msgs report. split; [| split; [| split]].
  - pose proof (report_sections business_idea now debug w) as H.
    by apply (f_equal fst) in H.
  - intros H. unfold section_text. by rewrite section_absent_value.
  - intros H. unfold section_text. by rewrite section_absent_value.
  - intros s Hs H. unfold section_text. rewrite section_absent_value by done.
    by destruct Hs as [-> | [-> | ->]].
Qed.

Lemma missing_sections_report_witness :
  let w := transcript_of [msg "assistant" "MARKET SIZE: $1B";
                          msg "user" "STRENGTHS: many"] in
  (_generate_final_report "tea shop" "2024-01-01 00:00:00" false w).1 =
  report_header "tea shop" "2024-01-01 00:00:00" +:+
  (nl +:+ "### Market Research" +:+ nl +:+ "MARKET SIZE: $1B" +:+ nl) +:+
  (nl +:+ "### Competitive Analysis" +:+ nl +:+
   "(No CompetitorScout output found.)" +:+ nl) +:+
  report_footer.
Proof.
  intros w.
  assert (∀ s, s ≠ MarketResearch → section_absent (w_messages w) s) as Habs.
  { intros s Hs m Hin Ha.
    apply elem_of_cons in Hin as [-> | ->%list_elem_of_singleton];
      [| discriminate Ha].
    split.
    - apply str_in_false. destruct s; first [done | reflexivity].
    - intros f Hf. apply str_in_false.
      destruct s; simpl in Hf; simplify_eq; first [done | reflexivity]. }
  destruct (missing_sections_report "tea shop" "2024-01-01 00:00:00" false w)
    as (-> & _ & HCA & Hrest).
  rewrite HCA by (by apply Habs).
  rewrite (Hrest ClarifiedIdea), (Hrest SWOTAnalysis),
    (Hrest StrategicFeedback) by first [by auto | by apply Habs].
  reflexivity.
Defined.

(** C1 as stated fails: on the empty transcript all five sections lack
    their markers, yet only two placeholder lines are written, and the
    clarified idea, SWOT analysis and strategic feedback headings do not
    appear at all. *)
Lemma only_two_placeholders :
  let report :=
    (_generate_final_report "tea shop" "2024-01-01 00:00:00" false
       (transcript_of [])).1 in
  (∀ s, section_absent [] s) ∧
  count_occurrences "(No " report = 2%nat ∧
  count_occurrences " output found.)" report = 2%nat ∧
  str_in "(No MarketResearcher output found.)" report = true ∧
  str_in "(No CompetitorScout output found.)" report = true ∧
  str_in "### Clarified Business Idea" report = false ∧
  str_in "### SWOT Analysis" report = false ∧
  str_in "### Strategic Feedback" report = false.
Proof.
  split.
  - intros s m Hin. by apply elem_of_nil in Hin.
  - vm_compute. repeat split.
Qed.

(** C5: a section with a primary and a fallback marker takes the whole
    content of the most recent assistant message containing the primary
    marker when there is one, and then performs no search for the
    fallback; when no assistant message contains the primary marker, it
    takes the whole content of the most recent assistant message
    containing the fallback marker. Each section's text and searches
    depend on the transcript and on that section's own markers only: the
    report is the concatenation of the sections' texts, and the searches
    performed are the concatenation of the sections' searches. *)
Theorem primary_then_fallback (business_idea now : string) (debug : bool)
    (w : world) :
  let msgs := w_messages w in
  observed (_generate_final_report business_idea now debug w) =
    (report_header business_idea now +:+
       section_text msgs MarketResearch +:+
       section_text msgs CompetitiveAnalysis +:+
       section_text msgs ClarifiedIdea +:+
       section_text msgs SWOTAnalysis +:+
       section_text msgs StrategicFeedback +:+
       report_footer,
     w_searches w ++
       section_searches msgs MarketResearch ++
       section_searches msgs CompetitiveAnalysis ++
       section_searches msgs ClarifiedIdea ++
       section_searches msgs SWOTAnalysis ++
       section_searches msgs StrategicFeedback) ∧
  ∀ s f, fallback_marker s = Some f →
    (∀ m, latest_match (primary_marker s) msgs m →
       section_value msgs s = Some (content m) ∧
       section_text msgs s = nl +:+ heading s +:+ nl +:+ content m +:+ nl ∧
       section_searches msgs s = [(primary_marker s, None)]) ∧
    (∀ m, (∀ m', m' ∈ msgs → ¬ matches (primary_marker s) m') →
       latest_match f msgs m →
       section_value msgs s = Some (content m) ∧
       section_text msgs s = nl +:+ heading s +:+ nl +:+ content m +:+ nl ∧
       section_searches msgs s = [(primary_marker s, None); (f, None)]).
Proof.
  intros msgs. split; [apply report_sections |].
  intros s f Hf.
  assert (end_marker s = None) as He by (by destruct s).
  unfold section_text, section_searches, section_value. rewrite Hf, He.
  split.
  - intros m Hm. by rewrite (lookup_marker_latest _ _ _ _ Hm).
  - intros m Hno Hm.
    rewrite (lookup_marker_none _ _ _ Hno). simpl.
    by rewrite (lookup_marker_latest _ _ _ _ Hm).
Qed.

Lemma primary_then_fallback_witness :
  let msgs := [msg "assistant" "MARKET SIZE: $1B";
               msg "assistant" "### COMPETITOR SCOUT report";
               msg "assistant" "DIRECT COMPETITORS: none"] in
  section_text msgs MarketResearch =
    nl +:+ "### Market Research" +:+ nl +:+ "MARKET SIZE: $1B" +:+ nl ∧
  section_searches msgs MarketResearch =
    [("### MARKET RESEARCHER", None); ("MARKET SIZE:", None)] ∧
  section_text msgs CompetitiveAnalysis =
    nl +:+ "### Competitive Analysis" +:+ nl +:+
    "### COMPETITOR SCOUT report" +:+ nl ∧
  section_searches msgs CompetitiveAnalysis = [("### COMPETITOR SCOUT", None)].
Proof.
  intros msgs.
  destruct (primary_then_fallback "tea shop" "2024-01-01 00:00:00" false
              (transcript_of msgs)) as [_ H].
  change (w_messages (transcript_of msgs)) with msgs in H.
  destruct (H MarketResearch "MARKET SIZE:" eq_refl) as [_ HMR].
  destruct (H CompetitiveAnalysis "DIRECT COMPETITORS:" eq_refl) as [HCA _].
  destruct (HMR (msg "assistant" "MARKET SIZE: $1B")) as (_ & -> & ->).
  { intros m' Hin [_ Ho]. revert Ho. apply str_in_false.
    repeat (apply elem_of_cons in Hin as [-> | Hin]; [reflexivity |]).
    by apply elem_of_nil in Hin. }
  { exists [], [msg "assistant" "### COMPETITOR SCOUT report";
                msg "assistant" "DIRECT COMPETITORS: none"].
    split; [reflexivity |]. split.
    - split; [reflexivity |]. apply str_in_occurs. reflexivity.
    - intros m' Hin [_ Ho]. revert Ho. apply str_in_false.
      repeat (apply elem_of_cons in Hin as [-> | Hin]; [reflexivity |]).
      by apply elem_of_nil in Hin. }
  destruct (HCA (msg "assistant" "### COMPETITOR SCOUT report")) as (_ & -> & ->).
  { exists [msg "assistant" "MARKET SIZE: $1B"],
           [msg "assistant" "DIRECT COMPETITORS: none"].
    split; [reflexivity |]. split.
    - split; [reflexivity |]. apply str_in_occurs. reflexivity.
    - intros m' ->%list_elem_of_singleton [_ Ho]. revert Ho.
      apply str_in_false. reflexivity. }
  repeat split.
Defined.

(** C8: report generation only reads the transcript: afterwards the
    message list is the one it was, so it has the same length and every
    message has the same role and the same content. *)
Theorem report_leaves_transcript (business_idea now : string) (debug : bool)
    (w : world) :
  let after := w_messages (_generate_final_report business_idea now debug w).2 in
  after = w_messages w ∧
  length after = length (w_messages w) ∧
  (λ m : message, m !! "role") <$> after =
    (λ m : message, m !! "role") <$> w_messages w ∧
  (λ m : message, m !! "content") <$> after =
    (λ m : message, m !! "content") <$> w_messages w.
Proof.
  intros after.
  assert (after = w_messages w) as ->
    by apply read_only_generate_final_report.
  done.
Qed.

(** ** Running the shim *)

Lemma sh_bind_run {A B : Type} (c : Sh A) (k : A → Sh B) (w : shim_world) :
  (c ≫= k) w =
  match c w with
  | (Returns a, w') => k a w'
  | (Raises e, w') => (Raises e, w')
  end.
Proof. done. Qed.

Lemma comprehension_getitem_run (results : list (gmap string string))
    (w : shim_world) :
  comprehension (λ result, getitem result "body") results w =
  match bodies results with
  | Some l => (Returns l, w)
  | None => (Raises (KeyError "body"), w)
  end.
Proof.
  unfold bodies. induction results as [|r rs IH]; [done |].
  simpl. rewrite sh_bind_run. unfold getitem at 1.
  destruct (r !! "body") as [v|]; simpl; [| done].
  rewrite sh_bind_run, IH.
  by destruct (mapM _ rs).
Qed.

Lemma web_search_run
    (ddgs_text : string → nat → outcome (list (gmap string string)))
    (query : string) (w : shim_world) :
  (web_search ddgs_text query w).1 = Returns (snippets ddgs_text query) ∧
  s_requests (web_search ddgs_text query w).2 =
    s_requests w ++ [(query, 5%nat)].
Proof.
  unfold web_search, try_except, snippets. rewrite sh_bind_run.
  unfold ddgs_request.
  destruct (ddgs_text query 5%nat) as [rs|e]; [| done].
  rewrite comprehension_getitem_run. by destruct (bodies rs).
Qed.

Lemma bodies_length (results : list (gmap string string)) (l : list string) :
  bodies results = Some l → length l = length results.
Proof. unfold bodies. intros H. by apply length_mapM in H. Qed.

Lemma with_last_snoc {A : Type} (init : list A) (x y : A) :
  with_last (init ++ [x]) y = init ++ [y].
Proof.
  unfold with_last. rewrite length_app. simpl.
  replace (pred (length init + 1)) with (length init + 0)%nat by lia.
  by rewrite insert_app_r.
Qed.

Lemma has_messages_snoc (init : list message) (m : message) :
  has_messages (Some (init ++ [m])) = true.
Proof.
  simpl. apply andb_true_iff. split; apply bool_decide_eq_true.
  - by destruct init.
  - rewrite length_app. simpl. lia.
Qed.

Section ShimFacts.
Context {Sender Config Reply : Type}.
Variable ddgs_text : string → nat → outcome (list (gmap string string)).
Variable super_generate_reply :
  option (list message) → Sender → Config → Reply.

(** The message list a non-empty call hands to the parent class. *)
Lemma generate_reply_run (self : WebSearchAgent) (init : list message)
    (m : message) (sender : Sender) (config : Config) (w : shim_world) :
  let found := from_option (snippets ddgs_text) [] (research_query self) in
  let final :=
    match found with
    | [] => init ++ [m]
    | _ :: _ =>
        init ++ [<["content" := default "" (m !! "content") +:+ nl +:+ nl +:+
                                 "WEB SEARCH RESULTS:" +:+ nl +:+
                                 join nl (take 3 found)]> m]
    end in
  let r := generate_reply ddgs_text super_generate_reply self
             (Some (init ++ [m])) sender config w in
  r.1 = Returns (Some final, super_generate_reply (Some final) sender config) ∧
  s_requests r.2 =
    s_requests w ++ from_option (λ q, [(q, 5%nat)]) [] (research_query self).
Proof.
  intros found final r. subst r found final.
  unfold generate_reply. rewrite has_messages_snoc.
  cbn [default from_option id]. unfold getitem_last. rewrite last_snoc.
  rewrite !sh_bind_run. cbn [mret Sh_ret].
  unfold research_query.
  destruct (bool_decide (name self = "MarketResearcher")).
  { rewrite !sh_bind_run. cbn [sh_print from_option].
    match goal with |- context [web_search _ ?q ?w'] =>
      destruct (web_search_run ddgs_text q w') as [Hv Hr];
      destruct (web_search ddgs_text q w') as [o w''] end.
    simpl in Hv, Hr. subst o.
    destruct (snippets ddgs_text _) as [|s l]; simpl;
      rewrite ?with_last_snoc; by rewrite Hr. }
  destruct (bool_decide (name self = "CompetitorScout")).
  { rewrite !sh_bind_run. cbn [sh_print from_option].
    match goal with |- context [web_search _ ?q ?w'] =>
      destruct (web_search_run ddgs_text q w') as [Hv Hr];
      destruct (web_search ddgs_text q w') as [o w''] end.
    simpl in Hv, Hr. subst o.
    destruct (snippets ddgs_text _) as [|s l]; simpl;
      rewrite ?with_last_snoc; by rewrite Hr. }
  simpl. by rewrite List.app_nil_r.
Qed.
End ShimFacts.

(** ** The shim: claims *)

Section ShimClaims.
Context {Sender Config Reply : Type}.
Variable ddgs_text : string → nat → outcome (list (gmap string string)).
Variable super_generate_reply :
  option (list message) → Sender → Config → Reply.

(** C6: [web_search] never lets an exception out; when the search
    provider raises, it returns the empty list; and when the provider
    raises on every call, [generate_reply] appends nothing: for every
    agent and every message list the parent class receives the messages
    exactly as they were passed in. *)
Theorem search_failures_are_swallowed :
  (∀ query w, ∃ found, (web_search ddgs_text query w).1 = Returns found) ∧
  (∀ query e w, ddgs_text query 5%nat = Raises e →
     (web_search ddgs_text query w).1 = Returns []) ∧
  ((∀ query n, ∃ e, ddgs_text query n = Raises e) →
   ∀ self messages sender config w,
     (generate_reply ddgs_text super_generate_reply self messages sender
        config w).1 =
     Returns (messages, super_generate_reply messages sender config)).
Proof.
  split; [| split].
  - intros query w. exists (snippets ddgs_text query). apply web_search_run.
  - intros query e w He.
    rewrite (proj1 (web_search_run ddgs_text query w)).
    unfold snippets. by rewrite He.
  - intros Hfail self messages sender config w.
    destruct messages as [msgs|]; [| done].
    destruct msgs as [|m0 msgs _] using rev_ind; [done |].
    rewrite (proj1 (generate_reply_run ddgs_text super_generate_reply
                      self msgs m0 sender config w)).
    destruct (research_query self) as [q|]; simpl; [| done].
    unfold snippets. by destruct (Hfail q 5%nat) as [e ->].
Qed.

(** C7: for a non-empty message list, when the replying agent is
    ["MarketResearcher"] or ["CompetitorScout"] and [web_search] returns
    a non-empty list, [generate_reply] replaces the content of the last
    message by its previous content, the banner and the first three
    snippets joined by newlines, and hands that list to the parent
    class; the one search it performs asks for at most 5 results, so
    with a provider that honours [max_results] at most 5 snippets come
    back. *)
Theorem snippets_are_appended (self : WebSearchAgent) (query : string)
    (found : list string) (init : list message) (m : message)
    (sender : Sender) (config : Config) (w w0 : shim_world) :
  research_query self = Some query →
  (web_search ddgs_text query w0).1 = Returns found →
  found ≠ [] →
  let m' :=
    <["content" := default "" (m !! "content") +:+ nl +:+ nl +:+
                   "WEB SEARCH RESULTS:" +:+ nl +:+ join nl (take 3 found)]> m in
  let r := generate_reply ddgs_text super_generate_reply self
             (Some (init ++ [m])) sender config w in
  (name self = "MarketResearcher" ∨ name self = "CompetitorScout") ∧
  r.1 = Returns (Some (init ++ [m']),
                 super_generate_reply (Some (init ++ [m'])) sender config) ∧
  s_requests r.2 = s_requests w ++ [(query, 5%nat)] ∧
  ((∀ q n results, ddgs_text q n = Returns results →
                   (length results ≤ n)%nat) →
   (length found ≤ 5)%nat).
Proof.
  intros Hq Hfound Hne m' r.
  rewrite (proj1 (web_search_run ddgs_text query w0)) in Hfound.
  injection Hfound as Hfound.
  destruct (generate_reply_run ddgs_text super_generate_reply self init m
              sender config w) as [Hv Hr].
  rewrite Hq in Hv, Hr. simpl in Hv, Hr. rewrite Hfound in Hv.
  split; [| split; [| split]].
  - unfold research_query in Hq.
    destruct (bool_decide_reflect (name self = "MarketResearcher")); [by left |].
    destruct (bool_decide_reflect (name self = "CompetitorScout")); [by right |].
    done.
  - subst r m'. rewrite Hv. by destruct found.
  - done.
  - intros Hmax. subst found. unfold snippets.
    destruct (ddgs_text query 5%nat) as [rs|e] eqn:Hrs; simpl; [| lia].
    destruct (bodies rs) as [l|] eqn:Hb; simpl; [| lia].
    rewrite (bodies_length _ _ Hb). by apply (Hmax query).
Qed.

(** C10: called with [None] or with an empty message list,
    [generate_reply] performs no search, prints nothing, evaluates no
    [messages[-1]] (no [IndexError] is raised) and hands the messages
    unchanged to the parent class, whatever the agent's name. *)
Theorem no_messages_no_search (self : WebSearchAgent) (sender : Sender)
    (config : Config) (w : shim_world) :
  generate_reply ddgs_text super_generate_reply self None sender config w =
    (Returns (None, super_generate_reply None sender config), w) ∧
  generate_reply ddgs_text super_generate_reply self (Some []) sender
    config w =
    (Returns (Some [], super_generate_reply (Some []) sender config), w).
Proof. done. Qed.
End ShimClaims.

Lemma search_failures_are_swallowed_witness :
  (web_search failing_provider "tea shop" (ShimWorld [] [])).1 = Returns [] ∧
  (generate_reply failing_provider sample_parent
     {| name := "MarketResearcher"; business_idea := "tea shop" |}
     (Some [msg "user" "Validate my idea"]) tt tt (ShimWorld [] [])).1 =
  Returns (Some [msg "user" "Validate my idea"], 1%nat).
Proof.
  destruct (search_failures_are_swallowed failing_provider sample_parent)
    as (_ & Hsearch & Hreply).
  split.
  - by apply (Hsearch "tea shop" (OtherException "rate limited")).
  - apply Hreply. intros query n. by exists (OtherException "rate limited").
Defined.

Lemma snippets_are_appended_witness :
  let self := {| name := "CompetitorScout"; business_idea := "tea shop" |} in
  let r := generate_reply sample_provider sample_parent self
             (Some [msg "user" "Hello"; msg "user" "Validate my idea"]) tt tt
             (ShimWorld [] []) in
  r.1 = Returns
          (Some [msg "user" "Hello";
                 msg "user" ("Validate my idea" +:+ nl +:+ nl +:+
                             "WEB SEARCH RESULTS:" +:+ nl +:+
                             "first" +:+ nl +:+ "second" +:+ nl +:+ "third")],
           2%nat) ∧
  s_requests r.2 = [("top competitors and alternatives for tea shop", 5%nat)] ∧
  (length ["first"; "second"; "third"; "fourth"; "fifth"] ≤ 5)%nat.
Proof.
  intros self r.
  destruct (snippets_are_appended sample_provider sample_parent self
              "top competitors and alternatives for tea shop"
              ["first"; "second"; "third"; "fourth"; "fifth"]
              [msg "user" "Hello"] (msg "user" "Validate my idea") tt tt
              (ShimWorld [] []) (ShimWorld [] []))
    as (_ & Hv & Hr & Hmax); [reflexivity | reflexivity | done |].
  split; [| split; [exact Hr |]].
  - subst r. etransitivity; [exact Hv |]. vm_compute. reflexivity.
  - apply Hmax. intros q n results Hres. injection Hres as <-.
    rewrite length_take. lia.
Defined.

(** ** More facts about strings *)

Lemma str_app_empty_r (s : string) : s +:+ "" = s.
Proof. induction s as [|c s IH]; simpl; [done | by f_equal]. Qed.

Lemma str_split_at (s : string) (i : nat) :
  (i ≤ String.length s)%nat →
  ∃ a b, s = a +:+ b ∧ String.length a = i.
Proof.
  revert i. induction s as [|c s IH]; intros i Hi; simpl in Hi.
  - exists "", "". split; [done | simpl; lia].
  - destruct i as [|i]; [by exists "", (String c s) |].
    destruct (IH i) as (a & b & -> & Ha); [lia |].
    exists (String c a), b. simpl. by rewrite Ha.
Qed.

(** A substring within bounds is a segment of the text. *)
Lemma substring_segment (c : string) (i k : nat) :
  (i + k ≤ String.length c)%nat →
  ∃ a b, c = a +:+ String.substring i k c +:+ b ∧ String.length a = i.
Proof.
  intros Hle.
  destruct (str_split_at c i) as (a & rest & -> & Ha); [lia |].
  rewrite str_length_app in Hle.
  destruct (str_split_at rest k) as (r & b & -> & Hr); [lia |].
  exists a, b. subst i k. by rewrite substring_app.
Qed.

Lemma substring_length_le (c : string) (i k : nat) :
  (String.length (String.substring i k c) ≤ k)%nat.
Proof.
  revert i k. induction c as [|x c IH]; intros i k.
  - destruct i, k; simpl; lia.
  - destruct i as [|i]; simpl.
    + destruct k as [|k]; simpl; [lia |]. specialize (IH 0%nat k). lia.
    + apply IH.
Qed.

Lemma slice_prefix_length (s : string) (n : nat) :
  (String.length (slice s 0 (Z.of_nat n)) ≤ n)%nat.
Proof.
  unfold slice, slice_bound. simpl.
  destruct (Z.ltb_spec (Z.of_nat n) 0); [lia |].
  rewrite Z.min_l by (unfold len; lia).
  etrans; [apply substring_length_le | lia].
Qed.

Lemma endswith_spec (s suffix : string) :
  endswith s suffix = true ↔ ∃ b, s = b +:+ suffix.
Proof.
  unfold endswith. rewrite andb_true_iff, bool_decide_eq_true, String.eqb_eq.
  split.
  - intros [Hle Heq].
    destruct (substring_segment s (String.length s - String.length suffix)
                (String.length suffix)) as (a & b & Hs & Ha); [lia |].
    rewrite Heq in Hs. exists a.
    assert (b = "") as ->.
    { apply (f_equal String.length) in Hs. rewrite !str_length_app in Hs.
      destruct b; [done | simpl in Hs; lia]. }
    by rewrite str_app_empty_r in Hs.
  - intros [b ->]. rewrite str_length_app. split; [lia |].
    replace (String.length b + String.length suffix - String.length suffix)%nat
      with (String.length b) by lia.
    pose proof (substring_app b suffix "") as H.
    by rewrite str_app_empty_r in H.
Qed.

Section WhitespaceFacts.
Variable isspace : ascii → bool.

Lemma all_space_app (a b : string) :
  all_space isspace (a +:+ b) = all_space isspace a && all_space isspace b.
Proof.
  induction a as [|c a IH]; simpl; [done |]. rewrite IH. by destruct (isspace c).
Qed.

Lemma rstrip_all_space (s : string) :
  all_space isspace s = true → rstrip isspace s = "".
Proof.
  induction s as [|c s IH]; simpl; [done |].
  intros [Hc Hs]%andb_true_iff. by rewrite IH, Hc.
Qed.

(** [rstrip] removes a run of whitespace and nothing else. *)
Lemma rstrip_spec (s : string) :
  ∃ ws, s = rstrip isspace s +:+ ws ∧ all_space isspace ws = true.
Proof.
  induction s as [|c s (ws & Hs & Hws)]; [by exists "" |].
  simpl. destruct (rstrip isspace s) as [|d r] eqn:Hr.
  - destruct (isspace c) eqn:Hc.
    + exists (String c s). split; [done |]. simpl in *. subst s.
      by rewrite Hc.
    + exists ws. simpl in *. by subst s.
  - exists ws. simpl. split; [| done]. f_equal. exact Hs.
Qed.

Lemma rstrip_keeps (s : string) (c : ascii) :
  isspace c = false →
  rstrip isspace (s +:+ String c "") = s +:+ String c "".
Proof.
  intros Hc. induction s as [|d s IH]; simpl; [by rewrite Hc |].
  rewrite IH. by destruct s.
Qed.

Lemma rstrip_app_space (s ws : string) :
  all_space isspace ws = true →
  rstrip isspace (s +:+ ws) = rstrip isspace s.
Proof.
  intros Hws. induction s as [|d s IH]; simpl.
  - by apply rstrip_all_space.
  - by rewrite IH.
Qed.

Lemma lstrip_all_space (s : string) :
  all_space isspace s = true → lstrip isspace s = "".
Proof.
  induction s as [|c s IH]; simpl; [done |].
  intros [Hc Hs]%andb_true_iff. rewrite Hc. by apply IH.
Qed.

Lemma lstrip_nonempty (s : string) :
  all_space isspace s = false →
  ∃ c r, lstrip isspace s = String c r ∧ isspace c = false.
Proof.
  induction s as [|c s IH]; simpl; [done |].
  destruct (isspace c) eqn:Hc; simpl; [done | by exists c, s].
Qed.

Lemma rstrip_nonempty (c : ascii) (r : string) :
  isspace c = false → rstrip isspace (String c r) ≠ "".
Proof.
  intros Hc. simpl. destruct (rstrip isspace r); [by rewrite Hc | done].
Qed.

(** A text is blank exactly when stripping it leaves nothing. *)
Lemma strip_empty (s : string) :
  strip isspace s = "" ↔ all_space isspace s = true.
Proof.
  unfold strip. split.
  - intros H. destruct (all_space isspace s) eqn:Hs; [done |].
    destruct (lstrip_nonempty s Hs) as (c & r & Hl & Hc).
    rewrite Hl in H. by destruct (rstrip_nonempty c r Hc).
  - intros H. by rewrite lstrip_all_space.
Qed.
End WhitespaceFacts.

(** ** More about the extractor *)

Lemma matched_segment (c ps : string) (pe : option string) :
  occurs ps c → ∃ a b, c = a +:+ matched c ps pe +:+ b.
Proof.
  intros Hocc.
  assert (∃ a b, c = a +:+ c +:+ b) as Hwhole
    by (exists "", ""; by rewrite str_app_empty_r).
  destruct (opt_truthy pe) eqn:Hpe; [| by rewrite matched_no_end].
  destruct pe as [pe|]; [| done]. simpl in Hpe. apply str_truthy_ne in Hpe.
  destruct (occurs_first_occ _ _ Hocc) as [i Hi].
  destruct (String.index i pe c) as [j|] eqn:Hj.
  - apply index_Some in Hj.
    rewrite (matched_bounded _ _ _ _ _ Hpe Hi Hj).
    destruct Hj as (Hle & Hle'%occurs_at_le & _).
    destruct (substring_segment c i (j + String.length pe - i))
      as (a & b & Hc & _); [lia | by exists a, b].
  - rewrite (matched_unbounded _ _ _ i); [done | done |].
    intros p Hp. by apply (index_None _ _ _ _ Hj).
Qed.

Lemma find_agent_response_Some (w : world) (ps : string) (pe : option string)
    (v : string) :
  (find_agent_response ps pe w).1 = Some v →
  ∃ m, m ∈ w_messages w ∧ matches ps m ∧ v = matched (content m) ps pe.
Proof.
  rewrite find_agent_response_run. simpl. unfold lookup_marker.
  destruct (most_recent ps (w_messages w)) as [m|] eqn:Hm; [| done].
  intros [= <-]. exists m.
  apply most_recent_has_marker in Hm as [Hin Hm].
  by apply has_marker_matches in Hm.
Qed.

(** X1: whatever [find_agent_response] returns is a contiguous piece of
    the content of an assistant message of the transcript that contains
    the start marker: text is cut out, never made up. *)
Theorem extraction_is_a_segment (w : world) (ps : string) (pe : option string)
    (v : string) :
  (find_agent_response ps pe w).1 = Some v →
  ∃ m a b, m ∈ w_messages w ∧ m !! "role" = Some "assistant" ∧
           occurs ps (content m) ∧ content m = a +:+ v +:+ b.
Proof.
  intros (m & Hin & [Hr Ho] & ->)%find_agent_response_Some.
  destruct (matched_segment (content m) ps pe Ho) as (a & b & Hc).
  by exists m, a, b.
Qed.

Lemma extraction_is_a_segment_witness :
  ∃ m a b,
    m ∈ [msg "assistant" "Sure. CLARIFIED IDEA: tea BUSINESS MODEL: sales"] ∧
    m !! "role" = Some "assistant" ∧
    occurs "CLARIFIED IDEA:" (content m) ∧
    content m = a +:+ "CLARIFIED IDEA: tea BUSINESS MODEL:" +:+ b.
Proof.
  apply (extraction_is_a_segment
           (transcript_of
              [msg "assistant" "Sure. CLARIFIED IDEA: tea BUSINESS MODEL: sales"])
           "CLARIFIED IDEA:" (Some "BUSINESS MODEL:")).
  reflexivity.
Defined.

(** X2: with a non-empty start marker the text found is never empty, so
    the truthiness tests of the report ([a or b], [if section:]) never
    discard a section that was found. *)
Theorem found_text_is_never_empty (w : world) (ps : string)
    (pe : option string) (v : string) :
  ps ≠ "" → (find_agent_response ps pe w).1 = Some v →
  v ≠ "" ∧ opt_truthy (Some v) = true.
Proof.
  intros Hps (m & Hin & [Hr Ho] & ->)%find_agent_response_Some.
  pose proof (matched_truthy (content m) ps pe Hps Ho) as H.
  split; [by apply str_truthy_ne | done].
Qed.

Lemma found_text_is_never_empty_witness :
  "STRENGTHS: many" ≠ "" ∧ opt_truthy (Some "STRENGTHS: many") = true.
Proof.
  apply (found_text_is_never_empty
           (transcript_of [msg "assistant" "STRENGTHS: many"])
           "STRENGTHS:" None); [done | reflexivity].
Defined.

(** X3: the transcript grows at its end. A new last message that is an
    assistant message containing the start marker becomes the source of
    the search result, whatever came before; any other new last message
    leaves the result as it was. *)
Theorem appended_message (w : world) (ps : string) (pe : option string)
    (m : message) :
  let w' := World (w_messages w ++ [m]) (w_searches w) (w_stdout w) in
  (matches ps m →
     (find_agent_response ps pe w').1 = Some (matched (content m) ps pe)) ∧
  (¬ matches ps m →
     (find_agent_response ps pe w').1 = (find_agent_response ps pe w).1).
Proof.
  intros w'. subst w'. rewrite !find_agent_response_run. simpl.
  unfold lookup_marker, most_recent. rewrite List.filter_app. simpl.
  split.
  - intros Hm%has_marker_matches. rewrite Hm. by rewrite last_snoc.
  - intros Hm%has_marker_not_matches. rewrite Hm. by rewrite List.app_nil_r.
Qed.

Lemma appended_message_witness :
  let w := transcript_of [msg "assistant" "STRENGTHS: the full list"] in
  (find_agent_response "STRENGTHS:" None
     (World (w_messages w ++ [msg "assistant" "As said: STRENGTHS: see above"])
            [] [])).1 = Some "As said: STRENGTHS: see above" ∧
  (find_agent_response "STRENGTHS:" None
     (World (w_messages w ++ [msg "user" "STRENGTHS: none"]) [] [])).1 =
  Some "STRENGTHS: the full list".
Proof.
  intros w. split.
  - apply (proj1 (appended_message w "STRENGTHS:" None
                    (msg "assistant" "As said: STRENGTHS: see above"))).
    split; [reflexivity |]. apply str_in_occurs. reflexivity.
  - etransitivity.
    + apply (proj2 (appended_message w "STRENGTHS:" None
                      (msg "user" "STRENGTHS: none"))).
      intros [Hrole _]. discriminate Hrole.
    + reflexivity.
Defined.

(** A computation that prints nothing. *)
Lemma find_agent_response_stdout (ps : string) (pe : option string) (w : world) :
  w_stdout (find_agent_response ps pe w).2 = w_stdout w.
Proof. by rewrite find_agent_response_run. Qed.

Lemma for_each_print_stdout {A : Type} (xs : list A) (line : A → string)
    (w : world) :
  (for_each xs (λ x, print (line x)) w).2 =
  World (w_messages w) (w_searches w) (w_stdout w ++ (line <$> xs)).
Proof.
  revert w. induction xs as [|x xs IH]; intros w; simpl.
  - rewrite List.app_nil_r. by destruct w.
  - rewrite bind_run, IH. simpl. by rewrite <- app_assoc.
Qed.

(** X4: the [debug] flag only prints. With it the console receives a
    heading line, one line per message (its role and the first 500
    characters of its content) and a closing line; without it nothing is
    printed; the report and the searches are the same either way. *)
Theorem debug_only_prints (business_idea now : string) (w : world) :
  let quiet := _generate_final_report business_idea now false w in
  let loud := _generate_final_report business_idea now true w in
  loud.1 = quiet.1 ∧
  w_searches loud.2 = w_searches quiet.2 ∧
  w_stdout quiet.2 = w_stdout w ∧
  w_stdout loud.2 =
    w_stdout w ++
    [nl +:+ "--- FULL CONVERSATION LOG ---" +:+ nl] ++
    (debug_line <$> w_messages w) ++
    [nl +:+ "--- END OF CONVERSATION LOG ---" +:+ nl].
Proof.
  intros quiet loud.
  pose proof (report_sections business_idea now false w) as Hq.
  pose proof (report_sections business_idea now true w) as Hl.
  cbv zeta in Hq, Hl. rewrite <- Hq in Hl. unfold observed in Hl.
  injection Hl as H1 H2.
  split; [done |]. split; [done |].
  subst quiet loud. unfold _generate_final_report. split.
  - rewrite bind_run.
    match goal with |- context [(?c w).2] => set (w1 := (c w).2) end.
    do 8 run_step. reflexivity.
  - rewrite bind_run.
    match goal with |- context [(?c w).2] => set (w1 := (c w).2) end.
    do 8 run_step. cbn [mret M_ret snd w_stdout]. subst w1.
    rewrite !bind_run. simpl.
    rewrite (for_each_print_stdout (w_messages w) debug_line). simpl.
    by rewrite <- !app_assoc.
Qed.

(** ** The termination test *)

Section Termination.
Variable isspace : ascii → bool.

Lemma is_termination_msg_split (x : message) :
  is_termination_msg isspace x = true →
  ∃ body ws, content x = body +:+ "TERMINATE" +:+ ws ∧
             all_space isspace ws = true.
Proof.
  unfold is_termination_msg. fold (content x).
  intros [body Hb]%endswith_spec.
  destruct (rstrip_spec isspace (content x)) as (ws & Hc & Hws).
  exists body, ws. split; [| done].
  rewrite Hc at 1. by rewrite Hb, str_app_assoc.
Qed.

(** X5: a message ends the conversation only if its content is some text,
    then ["TERMINATE"], then nothing but whitespace; and every such
    content does end it, provided ["E"] is not a whitespace character. A
    message without a ["content"] key does not end the conversation. *)
Theorem termination_message_shape (x : message) :
  (is_termination_msg isspace x = true →
     ∃ body ws, content x = body +:+ "TERMINATE" +:+ ws ∧
                all_space isspace ws = true) ∧
  (isspace "E"%char = false →
     ∀ body ws, content x = body +:+ "TERMINATE" +:+ ws →
                all_space isspace ws = true →
                is_termination_msg isspace x = true) ∧
  (x !! "content" = None → is_termination_msg isspace x = false).
Proof.
  split; [apply is_termination_msg_split |].
  unfold is_termination_msg. fold (content x). split.
  - intros HE body ws -> Hws. apply endswith_spec. exists body.
    rewrite <- str_app_assoc, rstrip_app_space by done.
    change "TERMINATE" with ("TERMINAT" +:+ String "E"%char "").
    rewrite <- str_app_assoc. by apply rstrip_keeps.
  - unfold content. by intros ->.
Qed.

End Termination.

Lemma termination_message_shape_witness :
  is_termination_msg ascii_isspace
    (msg "assistant" ("STRATEGIC FEEDBACK: go" +:+ nl +:+ "TERMINATE" +:+ nl +:+ " ")) = true ∧
  ∃ body ws,
    content (msg "assistant" ("Done. TERMINATE" +:+ nl)) =
      body +:+ "TERMINATE" +:+ ws ∧
    all_space ascii_isspace ws = true.
Proof.
  split.
  - apply (proj1 (proj2 (termination_message_shape ascii_isspace _)) eq_refl
             ("STRATEGIC FEEDBACK: go" +:+ nl) (nl +:+ " ")); reflexivity.
  - apply (proj1 (termination_message_shape ascii_isspace _)). reflexivity.
Defined.

(** ** A terminating message and the feedback section *)

Lemma occurs_at_get_0 (sub c : string) (p : nat) (x : ascii) :
  occurs_at sub c p → String.get 0 sub = Some x → String.get p c = Some x.
Proof.
  intros Hocc Hx. rewrite <- Hx.
  replace p with (p + 0)%nat by lia. apply occurs_at_get; [done |].
  destruct sub; [done | simpl; lia].
Qed.

Lemma all_space_get (isspace : ascii → bool) (ws : string) (k : nat) (x : ascii) :
  all_space isspace ws = true → String.get k ws = Some x → isspace x = true.
Proof.
  revert k. induction ws as [|c ws IH]; intros k; simpl; [done |].
  intros [Hc Hws]%andb_true_iff. destruct k as [|k]; [by intros [= <-] |].
  by apply IH.
Qed.

Lemma get_app_r (a b : string) (k : nat) :
  String.get (String.length a + k) (a +:+ b) = String.get k b.
Proof. by rewrite Nat.add_comm, <- String.append_correct2. Qed.

Lemma get_app_l (a b : string) (k : nat) :
  (k < String.length a)%nat → String.get k (a +:+ b) = String.get k a.
Proof. intros H. symmetry. by apply String.append_correct1. Qed.

(** X6: in a message that ends the conversation and contains
    ["STRATEGIC FEEDBACK:"], the feedback extraction is always bounded: it
    runs from the first start marker through a ["TERMINATE"] and ends
    there, so the whole-message fallback is not taken and the trailing
    whitespace is not part of it (["S"] is not a whitespace character). *)
Theorem terminating_feedback_is_bounded (isspace : ascii → bool) (x : message)
    (i : nat) :
  isspace "S"%char = false →
  is_termination_msg isspace x = true →
  first_occ "STRATEGIC FEEDBACK:" (content x) i →
  ∃ a body rest,
    content x = a +:+ body +:+ "TERMINATE" +:+ rest ∧
    String.length a = i ∧
    matched (content x) "STRATEGIC FEEDBACK:" (Some "TERMINATE") =
      body +:+ "TERMINATE".
Proof.
  intros HS Hterm Hi.
  destruct (is_termination_msg_split isspace x Hterm)
    as (pre & ws & Hc & Hws).
  set (c := content x) in *.
  assert (occurs_at "TERMINATE" c (String.length pre)) as HE by (by exists pre, ws).
  assert (i ≤ String.length pre)%nat as Hle.
  { destruct (decide (i ≤ String.length pre)%nat) as [|Hgt]; [done |].
    exfalso. destruct Hi as (_ & Hocc & _).
    pose proof (occurs_at_get_0 _ _ _ "S"%char Hocc eq_refl) as Hget.
    rewrite Hc in Hget.
    replace i with (String.length pre + (i - String.length pre))%nat in Hget
      by lia.
    rewrite get_app_r in Hget.
    destruct (decide (i - String.length pre < 9)%nat) as [Hin|Hout].
    - rewrite (get_app_l "TERMINATE" ws) in Hget by exact Hin.
      assert (0 < i - String.length pre)%nat as Hpos by lia.
      revert Hget Hin Hpos. generalize (i - String.length pre)%nat as k.
      intros k Hget Hk Hpos. destruct k as [|k]; [lia |].
      do 8 (destruct k as [|k]; [done |]). lia.
    - replace (i - String.length pre)%nat
        with (String.length "TERMINATE" + (i - String.length pre - 9))%nat
        in Hget by (simpl; lia).
      rewrite get_app_r in Hget.
      pose proof (all_space_get _ _ _ _ Hws Hget). congruence. }
  destruct (index_occurs "TERMINATE" c i _ Hle HE) as (j & Hj%index_Some & _).
  rewrite (matched_bounded c "STRATEGIC FEEDBACK:" "TERMINATE" i j
             ltac:(done) Hi Hj).
  destruct Hj as (Hij & (u & rest & Hu & Hlu) & _).
  destruct (str_split_at u i) as (a & body & -> & Ha); [lia |].
  exists a, body, rest. rewrite str_app_assoc in Hu.
  split; [done |]. split; [done |].
  rewrite Hu. rewrite str_length_app in Hlu. subst i j.
  replace (String.length a + String.length body +
           String.length "TERMINATE" - String.length a)%nat
    with (String.length (body +:+ "TERMINATE"))
    by (rewrite str_length_app; lia).
  replace (a +:+ body +:+ "TERMINATE" +:+ rest)
    with (a +:+ (body +:+ "TERMINATE") +:+ rest) by (by rewrite !str_app_assoc).
  apply substring_app.
Qed.

Lemma terminating_feedback_is_bounded_witness :
  ∃ a body rest,
    content (msg "assistant"
               ("Intro. STRATEGIC FEEDBACK: go" +:+ nl +:+ "TERMINATE" +:+ nl)) =
      a +:+ body +:+ "TERMINATE" +:+ rest ∧
    String.length a = 7%nat ∧
    matched (content (msg "assistant"
               ("Intro. STRATEGIC FEEDBACK: go" +:+ nl +:+ "TERMINATE" +:+ nl)))
            "STRATEGIC FEEDBACK:" (Some "TERMINATE") =
      body +:+ "TERMINATE".
Proof.
  apply (terminating_feedback_is_bounded ascii_isspace); [reflexivity | reflexivity |].
  by apply index_Some.
Defined.

(** ** More about the shim *)

Lemma bodies_all (results : list (gmap string string)) :
  Forall (λ r : gmap string string, is_Some (r !! "body")) results →
  bodies results =
  Some ((λ r : gmap string string, default "" (r !! "body")) <$> results).
Proof.
  unfold bodies. induction 1 as [|r rs [v Hv] _ IH]; [done |].
  simpl. rewrite Hv. simpl. by rewrite IH.
Qed.

Lemma bodies_missing (results : list (gmap string string)) :
  Exists (λ r : gmap string string, r !! "body" = None) results →
  bodies results = None.
Proof.
  unfold bodies. induction 1 as [r rs Hr | r rs _ IH]; simpl.
  - by rewrite Hr.
  - destruct (r !! "body"); [| done]. simpl. by rewrite IH.
Qed.

Section ShimExtras.
Context {Sender Config Reply : Type}.
Variable ddgs_text : string → nat → outcome (list (gmap string string)).
Variable super_generate_reply :
  option (list message) → Sender → Config → Reply.

(** X7: [web_search] is all or nothing. When every result of the provider
    has a ["body"], the snippets are those bodies, in order; as soon as one
    result lacks it, the [KeyError] is swallowed with the rest and no
    snippet at all is returned. *)
Theorem web_search_all_or_nothing (query : string)
    (results : list (gmap string string)) (w : shim_world) :
  ddgs_text query 5%nat = Returns results →
  (Forall (λ r : gmap string string, is_Some (r !! "body")) results →
     (web_search ddgs_text query w).1 =
     Returns ((λ r : gmap string string, default "" (r !! "body")) <$> results)) ∧
  (Exists (λ r : gmap string string, r !! "body" = None) results →
     (web_search ddgs_text query w).1 = Returns []).
Proof.
  intros Hres. rewrite (proj1 (web_search_run ddgs_text query w)).
  unfold snippets. rewrite Hres. split.
  - intros H. by rewrite bodies_all.
  - intros H. by rewrite bodies_missing.
Qed.

(** X8: every call of [web_search] sends exactly one request, asking for 5
    results; a search that succeeds prints nothing, and a search that
    fails prints exactly one line that names the error. *)
Theorem web_search_effects (query : string) (w : shim_world) :
  let r := web_search ddgs_text query w in
  s_requests r.2 = s_requests w ++ [(query, 5%nat)] ∧
  s_stdout r.2 =
    s_stdout w ++
    match ddgs_text query 5%nat with
    | Raises e => ["Web search error: " +:+ exn_str e]
    | Returns results =>
        match bodies results with
        | Some _ => []
        | None => ["Web search error: 'body'"]
        end
    end.
Proof.
  intros r. subst r. split; [apply web_search_run |].
  unfold web_search, try_except. rewrite sh_bind_run. unfold ddgs_request.
  destruct (ddgs_text query 5%nat) as [rs|e]; [| done].
  rewrite comprehension_getitem_run.
  destruct (bodies rs); simpl; [by rewrite List.app_nil_r | done].
Qed.

(** X9: [generate_reply] never raises and touches nothing but the content
    of the last message: the list handed to the parent class has the
    length of the list passed in, every message before the last is the
    same, the last message keeps every key other than ["content"], and
    its old content is a prefix of its new content. *)
Theorem generate_reply_frame (self : WebSearchAgent)
    (messages : option (list message)) (sender : Sender) (config : Config)
    (w : shim_world) :
  ∃ final,
    (generate_reply ddgs_text super_generate_reply self messages sender
       config w).1 =
      Returns (final, super_generate_reply final sender config) ∧
    length <$> final = length <$> messages ∧
    (∀ msgs msgs' i, messages = Some msgs → final = Some msgs' →
       (i + 1 < length msgs)%nat → msgs' !! i = msgs !! i) ∧
    (∀ msgs msgs' m m', messages = Some msgs → final = Some msgs' →
       last msgs = Some m → last msgs' = Some m' →
       (∀ k, k ≠ "content" → m' !! k = m !! k) ∧
       ∃ added, content m' = content m +:+ added).
Proof.
  destruct messages as [msgs|]; [| by exists None].
  destruct msgs as [|m0 msgs _] using rev_ind.
  { exists (Some []). split; [done |]. split; [done |]. split.
    - intros ?? i [= <-] _ Hi. simpl in Hi. lia.
    - by intros ???? [= <-] _ Hl. }
  destruct (generate_reply_run ddgs_text super_generate_reply self msgs m0
              sender config w) as [Hv _]. cbv zeta in Hv.
  destruct (from_option (snippets ddgs_text) [] (research_query self))
    as [|s found] eqn:Hfound.
  - exists (Some (msgs ++ [m0])). split; [done |]. split; [done |]. split.
    + by intros ?? i [= <-] [= <-].
    + intros ???? [= <-] [= <-]. rewrite last_snoc. intros [= <-] [= <-].
      split; [done |]. exists "". by rewrite str_app_empty_r.
  - simpl in Hv. eexists. split; [exact Hv |].
    split; [simpl; by rewrite !length_app |]. split.
    + intros ?? i [= <-] [= <-] Hi. rewrite length_app in Hi. simpl in Hi.
      rewrite !lookup_app_l by lia. done.
    + intros ???? [= <-] [= <-]. rewrite !last_snoc. intros [= <-] [= <-].
      split.
      * intros k Hk. by rewrite lookup_insert_ne.
      * unfold content at 1. rewrite lookup_insert_eq. simpl. eauto.
Qed.

(** X10: an agent whose name is neither ["MarketResearcher"] nor
    ["CompetitorScout"] never sends a search request and hands the
    messages to the parent class exactly as they were passed in. *)
Theorem other_agents_never_search (self : WebSearchAgent)
    (messages : option (list message)) (sender : Sender) (config : Config)
    (w : shim_world) :
  name self ≠ "MarketResearcher" → name self ≠ "CompetitorScout" →
  let r := generate_reply ddgs_text super_generate_reply self messages sender
             config w in
  r.1 = Returns (messages, super_generate_reply messages sender config) ∧
  s_requests r.2 = s_requests w.
Proof.
  intros H1 H2 r. subst r.
  destruct messages as [msgs|]; [| done].
  destruct msgs as [|m0 msgs _] using rev_ind; [done |].
  destruct (generate_reply_run ddgs_text super_generate_reply self msgs m0
              sender config w) as [Hv Hr]. cbv zeta in Hv.
  assert (research_query self = None) as Hq.
  { unfold research_query. by rewrite !bool_decide_false. }
  rewrite Hq in Hv, Hr. cbn [from_option] in Hv, Hr.
  by rewrite List.app_nil_r in Hr.
Qed.

(** X11: nothing is remembered between calls. A research agent called
    twice on the same list searches twice, with the same query, and
    appends the banner and the snippets twice. *)
Theorem repeated_reply_appends_again (self : WebSearchAgent) (query : string)
    (init : list message) (m : message) (sender : Sender) (config : Config)
    (w : shim_world) :
  research_query self = Some query →
  snippets ddgs_text query ≠ [] →
  let context :=
    nl +:+ nl +:+ "WEB SEARCH RESULTS:" +:+ nl +:+
    join nl (take 3 (snippets ddgs_text query)) in
  let twice := Some (init ++ [<["content" := content m +:+ context +:+ context]> m]) in
  let first := generate_reply ddgs_text super_generate_reply self
                 (Some (init ++ [m])) sender config w in
  ∃ once,
    first.1 = Returns (once, super_generate_reply once sender config) ∧
    let second := generate_reply ddgs_text super_generate_reply self once
                    sender config first.2 in
    second.1 = Returns (twice, super_generate_reply twice sender config) ∧
    s_requests second.2 = s_requests w ++ [(query, 5%nat); (query, 5%nat)].
Proof.
  intros Hq Hne context twice first. subst first twice context.
  destruct (generate_reply_run ddgs_text super_generate_reply self init m
              sender config w) as [Hv Hr]. cbv zeta in Hv.
  rewrite Hq in Hv, Hr. cbn [from_option] in Hv, Hr.
  destruct (snippets ddgs_text query) as [|s found] eqn:Hs; [done |].
  eexists. split; [exact Hv |]. cbv zeta.
  match goal with |- context [generate_reply _ _ _ (Some (init ++ [?m1])) _ _ ?w1] =>
    destruct (generate_reply_run ddgs_text super_generate_reply self init m1
                sender config w1) as [Hv2 Hr2] end.
  cbv zeta in Hv2. rewrite Hq in Hv2, Hr2. cbn [from_option] in Hv2, Hr2.
  rewrite Hs in Hv2. cbn [from_option] in Hv2.
  rewrite Hv2, Hr2, Hr.
  rewrite lookup_insert_eq, insert_insert_eq. cbn [default from_option id].
  rewrite <- app_assoc. unfold content.
  by rewrite !str_app_assoc.
Qed.

(** X12: [BusinessValidatorAgent._web_search] is the same search as
    [WebSearchAgent.web_search]: the same snippets, the same request and
    the same console output, for every provider, query and state. *)
Theorem private_web_search_agrees (query : string) (w : shim_world) :
  _web_search ddgs_text query w = web_search ddgs_text query w.
Proof. reflexivity. Qed.
End ShimExtras.

Lemma web_search_all_or_nothing_witness :
  (web_search sample_provider "tea" (ShimWorld [] [])).1 =
    Returns ["first"; "second"; "third"; "fourth"; "fifth"] ∧
  (web_search (λ _ _, Returns [ ({[ "body" := "kept?" ]} : gmap string string);
                                ({[ "title" := "no body" ]} : gmap string string) ])
     "tea" (ShimWorld [] [])).1 = Returns [].
Proof.
  split.
  - etransitivity.
    + apply (proj1 (web_search_all_or_nothing sample_provider "tea" _
                      (ShimWorld [] []) eq_refl)).
      repeat constructor; by eexists.
    + reflexivity.
  - apply (proj2 (web_search_all_or_nothing _ "tea" _ (ShimWorld [] []) eq_refl)).
    apply Exists_cons_tl, Exists_cons_hd. reflexivity.
Defined.

Lemma other_agents_never_search_witness :
  let r := generate_reply sample_provider sample_parent
             {| name := "Clarifier"; business_idea := "tea shop" |}
             (Some [msg "user" "Validate my idea"]) tt tt (ShimWorld [] []) in
  r.1 = Returns (Some [msg "user" "Validate my idea"], 1%nat) ∧
  s_requests r.2 = [].
Proof.
  apply (other_agents_never_search sample_provider sample_parent
           {| name := "Clarifier"; business_idea := "tea shop" |}); done.
Defined.

Lemma repeated_reply_appends_again_witness :
  let self := {| name := "MarketResearcher"; business_idea := "tea" |} in
  let first := generate_reply sample_provider sample_parent self
                 (Some [msg "user" "Go"]) tt tt (ShimWorld [] []) in
  ∃ once,
    first.1 = Returns (once, sample_parent once tt tt) ∧
    s_requests
      (generate_reply sample_provider sample_parent self once tt tt first.2).2 =
    [("market trends and analysis for tea", 5%nat);
     ("market trends and analysis for tea", 5%nat)].
Proof.
  intros self first.
  destruct (repeated_reply_appends_again sample_provider sample_parent self
              "market trends and analysis for tea" [] (msg "user" "Go") tt tt
              (ShimWorld [] []) eq_refl) as (once & H1 & _ & H3); [done |].
  exists once. split; [exact H1 | exact H3].
Defined.

(** ** The program around the conversation: facts *)

Lemma app_bind_run {A B : Type} (c : App A) (k : A → App B) (w : app_world) :
  (c ≫= k) w =
  match c w with
  | (Returns a, w') => k a w'
  | (Raises e, w') => (Raises e, w')
  end.
Proof. done. Qed.

Lemma get_config_list_run (w : app_world) :
  _get_config_list w =
  (Returns (config_of (a_env w)),
   AppWorld (a_env w) (a_files w) (a_stdin w)
     (a_stdout w ++
      match config_of (a_env w) with
      | [] => ["Warning: No OpenAI API key found. Please set OPENAI_API_KEY environment variable.";
               "You can also use local models by modifying the config_list."]
      | _ => []
      end)).
Proof.
  unfold _get_config_list, config_of. rewrite app_bind_run. unfold getenv.
  destruct (a_env w !! "OPENAI_API_KEY") as [key|]; cbn [opt_truthy].
  - destruct (str_truthy key); cbn [default from_option id].
    + rewrite List.app_nil_r. by destruct w.
    + repeat (rewrite app_bind_run; cbn). by rewrite <- app_assoc.
  - repeat (rewrite app_bind_run; cbn). by rewrite <- app_assoc.
Qed.

(** X13: the configuration has one entry, for model ["gpt-4"] with the key
    of the environment, exactly when [OPENAI_API_KEY] is set to a
    non-empty text; when the variable is unset or empty the configuration
    is empty and the two warning lines are printed. Nothing is raised and
    nothing else changes. *)
Theorem config_follows_the_key (w : app_world) :
  let r := _get_config_list w in
  (∀ key, a_env w !! "OPENAI_API_KEY" = Some key → key ≠ "" →
     r = (Returns [ ({[ "model" := "gpt-4"; "api_key" := key ]}
                     : gmap string string) ], w)) ∧
  (a_env w !! "OPENAI_API_KEY" = None ∨
   a_env w !! "OPENAI_API_KEY" = Some "" →
     r.1 = Returns [] ∧
     a_stdout r.2 = a_stdout w ++
       ["Warning: No OpenAI API key found. Please set OPENAI_API_KEY environment variable.";
        "You can also use local models by modifying the config_list."] ∧
     a_env r.2 = a_env w ∧ a_files r.2 = a_files w ∧ a_stdin r.2 = a_stdin w).
Proof.
  intros r. subst r. rewrite get_config_list_run. unfold config_of. split.
  - intros key -> Hkey%str_truthy_ne. rewrite Hkey. cbn.
    rewrite List.app_nil_r. by destruct w.
  - by intros [-> | ->].
Qed.

Lemma config_follows_the_key_witness :
  _get_config_list (AppWorld {[ "OPENAI_API_KEY" := "sk-1" ]} ∅ [] []) =
    (Returns [ ({[ "model" := "gpt-4"; "api_key" := "sk-1" ]}
                : gmap string string) ],
     AppWorld {[ "OPENAI_API_KEY" := "sk-1" ]} ∅ [] []) ∧
  (_get_config_list (AppWorld {[ "OPENAI_API_KEY" := "" ]} ∅ [] [])).1 =
    Returns [].
Proof.
  split.
  - by apply (proj1 (config_follows_the_key
                       (AppWorld {[ "OPENAI_API_KEY" := "sk-1" ]} ∅ [] []))).
  - apply (proj2 (config_follows_the_key
                    (AppWorld {[ "OPENAI_API_KEY" := "" ]} ∅ [] []))).
    by right.
Defined.

(** X14: [_create_agents] builds, in this order, Clarifier,
    MarketResearcher, SWOTAnalyst, CompetitorScout and FeedbackAgent, all
    with the validator's configuration. The agents built as
    [WebSearchAgent] are exactly those whose name makes [generate_reply]
    search: each carries the business idea and sends a query that ends
    with it; for the plain assistants' names no query exists. *)
Theorem search_agents_are_the_research_roles
    (cfg : list (gmap string string)) (idea : string) :
  let agents := (_create_agents cfg idea).*2 in
  agent_name <$> agents =
    ["Clarifier"; "MarketResearcher"; "SWOTAnalyst"; "CompetitorScout";
     "FeedbackAgent"] ∧
  Forall (λ a, agent_config_list a = cfg) agents ∧
  Forall (λ a,
    match as_web_search_agent a with
    | Some self =>
        agent_class_of a = WebSearchAgentClass ∧ name self = agent_name a ∧
        business_idea self = idea ∧
        ∃ query, research_query self = Some query ∧
                 endswith query idea = true
    | None =>
        agent_class_of a = AssistantAgent ∧
        research_query {| name := agent_name a; business_idea := idea |} = None
    end) agents.
Proof.
  intros agents. split; [done |]. split; [by repeat constructor |].
  repeat constructor; simpl.
  - eexists. split; [reflexivity |]. apply endswith_spec. by eexists.
  - eexists. split; [reflexivity |]. apply endswith_spec. by eexists.
Qed.

(** X15: the system prompt of each section's agent asks for the looser
    marker the extractor searches for (the fallback, or the only start
    marker of a section without fallback) and for the section's end
    marker; the three "###" primary markers are asked for by no system
    prompt. *)
Theorem prompts_ask_for_the_markers (cfg : list (gmap string string))
    (idea : string) (s : section) :
  ∃ a, (section_agent s, a) ∈ _create_agents cfg idea ∧
       str_in (default (primary_marker s) (fallback_marker s))
              (agent_system_message a) = true ∧
       (∀ e, end_marker s = Some e → str_in e (agent_system_message a) = true) ∧
       (∀ f, fallback_marker s = Some f →
          Forall (λ a', str_in (primary_marker s) (agent_system_message a') = false)
                 (_create_agents cfg idea).*2).
Proof.
  destruct s; eexists; (split; [| split; [| split]]).
  all: try (intros ? [= <-]).
  all: try (repeat constructor; reflexivity).
  all: first [ reflexivity | (by repeat (apply elem_of_list_here || apply elem_of_list_further)) | idtac ].
Qed.

Section ProgramFacts.
Variable isspace : ascii → bool.
Variable initiate_chat :
  user_proxy → group_chat_manager → string → outcome (list message).
Variable open_error : string → option exn.
Variable now stamp : string.

Lemma save_report_run (report : string) (filename : option string)
    (w : app_world) :
  let chosen := default (default_filename stamp) filename in
  save_report open_error stamp report filename w =
  match open_error chosen with
  | Some e => (Raises e, w)
  | None =>
      (Returns chosen,
       AppWorld (a_env w) (<[chosen := report]> (a_files w)) (a_stdin w)
                (a_stdout w ++ ["Report saved to: " +:+ chosen]))
  end.
Proof.
  intros chosen. unfold save_report, write_file.
  assert (match filename with
          | Some f => f
          | None => "business_validation_report_" +:+ stamp +:+ ".md"
          end = chosen) as -> by (by destruct filename).
  rewrite !app_bind_run. by destruct (open_error chosen).
Qed.

(** X16: when the file can be opened, [save_report] leaves the report,
    verbatim, under the name it returns, and leaves every other file as
    it was. The name is the one passed, even the empty text, and the
    timestamped default only when none is passed. *)
Theorem saved_report_reads_back (report : string) (filename : option string)
    (w : app_world) :
  let chosen :=
    match filename with
    | Some given => given
    | None => "business_validation_report_" +:+ stamp +:+ ".md"
    end in
  open_error chosen = None →
  let r := save_report open_error stamp report filename w in
  r.1 = Returns chosen ∧
  a_files r.2 !! chosen = Some report ∧
  (∀ other, other ≠ chosen → a_files r.2 !! other = a_files w !! other) ∧
  a_stdout r.2 = a_stdout w ++ ["Report saved to: " +:+ chosen].
Proof.
  intros chosen Hopen r. subst r.
  pose proof (save_report_run report filename w) as Hrun. cbv zeta in Hrun.
  assert (default (default_filename stamp) filename = chosen) as Hc
    by (by destruct filename).
  rewrite Hc, Hopen in Hrun. rewrite Hrun. simpl.
  split; [done |]. split; [by rewrite lookup_insert_eq |].
  split; [| done]. intros other Hne. by rewrite lookup_insert_ne.
Qed.

(** X17: a collision overwrites silently. After two saves under the same
    name (for instance two default names with the same timestamp) the
    files are what the second save alone would have left: the first
    report is gone. *)
Theorem second_save_overwrites (first second : string)
    (filename : option string) (w : app_world) :
  open_error (default (default_filename stamp) filename) = None →
  let w1 := (save_report open_error stamp first filename w).2 in
  a_files (save_report open_error stamp second filename w1).2 =
  a_files (save_report open_error stamp second filename w).2 ∧
  a_files (save_report open_error stamp second filename w1).2
    !! default (default_filename stamp) filename = Some second.
Proof.
  intros Hopen w1. subst w1.
  pose proof (save_report_run first filename w) as H1.
  pose proof (save_report_run second filename w) as H2.
  cbv zeta in H1, H2. rewrite Hopen in H1, H2. rewrite H1. simpl.
  match goal with |- context [save_report _ _ _ _ ?w1] =>
    pose proof (save_report_run second filename w1) as H3 end.
  cbv zeta in H3. rewrite Hopen in H3. rewrite H3, H2. simpl.
  split; [apply insert_insert_eq | apply lookup_insert_eq].
Qed.

(** X18: when the file cannot be opened, [save_report] raises that error
    and has done nothing: no file is changed and nothing is printed. *)
Theorem failed_save_changes_nothing (report : string)
    (filename : option string) (w : app_world) (e : exn) :
  open_error (default (default_filename stamp) filename) = Some e →
  save_report open_error stamp report filename w = (Raises e, w).
Proof.
  intros Hopen. pose proof (save_report_run report filename w) as H.
  cbv zeta in H. by rewrite Hopen in H.
Qed.
End ProgramFacts.

Lemma saved_report_reads_back_witness :
  let r := save_report any_file "20240101_000000" "# Report" None
             (sample_app_world []) in
  r.1 = Returns "business_validation_report_20240101_000000.md" ∧
  a_files r.2 !! "business_validation_report_20240101_000000.md" =
    Some "# Report".
Proof.
  destruct (saved_report_reads_back any_file "20240101_000000" "# Report" None
              (sample_app_world []) eq_refl) as (H1 & H2 & _).
  split; [exact H1 | exact H2].
Defined.

Lemma second_save_overwrites_witness :
  let w1 := (save_report any_file "20240101_000000" "# First" None
               (sample_app_world [])).2 in
  a_files (save_report any_file "20240101_000000" "# Second" None w1).2
    !! "business_validation_report_20240101_000000.md" = Some "# Second".
Proof.
  exact (proj2 (second_save_overwrites any_file "20240101_000000" "# First"
                  "# Second" None (sample_app_world []) eq_refl)).
Defined.

Lemma failed_save_changes_nothing_witness :
  save_report no_empty_name "20240101_000000" "# Report" (Some "")
    (sample_app_world []) =
  (Raises (OtherException "[Errno 2] No such file or directory: ''"),
   sample_app_world []).
Proof.
  by apply (failed_save_changes_nothing no_empty_name "20240101_000000").
Defined.

(** ** The whole run *)

Lemma quiet_report_prints_nothing (business_idea now : string) (w : world) :
  w_stdout (_generate_final_report business_idea now false w).2 = w_stdout w.
Proof.
  unfold _generate_final_report. rewrite bind_run.
  match goal with |- context [(?c w).2] => set (w1 := (c w).2) end.
  do 8 run_step. reflexivity.
Qed.

Lemma app_print_run (line : string) (w : app_world) :
  app_print line w =
  (Returns tt,
   AppWorld (a_env w) (a_files w) (a_stdin w) (a_stdout w ++ [line])).
Proof. done. Qed.

Section RunFacts.
Variable isspace : ascii → bool.
Variable initiate_chat :
  user_proxy → group_chat_manager → string → outcome (list message).
Variable open_error : string → option exn.
Variable now stamp : string.

Lemma init_run (w : app_world) :
  BusinessValidatorAgent_init w =
  (Returns {| config_list := config_of (a_env w) |}, (_get_config_list w).2).
Proof.
  unfold BusinessValidatorAgent_init. rewrite app_bind_run.
  by rewrite get_config_list_run.
Qed.

Lemma validate_run (self : BusinessValidatorAgent) (business_idea : string)
    (w : app_world) :
  let w' :=
    AppWorld (a_env w) (a_files w) (a_stdin w)
      (a_stdout w ++ ["Starting business validation for: " +:+ business_idea;
                      repeat_str "=" 60]) in
  validate_business_idea isspace initiate_chat now self business_idea w =
  match chat_of isspace initiate_chat (config_list self) business_idea with
  | Returns messages =>
      (Returns (_generate_final_report business_idea now false
                  (World messages [] [])).1, w')
  | Raises e => (Raises e, w')
  end.
Proof.
  intros w'. subst w'. unfold validate_business_idea, chat_of, run_chat.
  rewrite !app_bind_run. cbn [app_print]. rewrite !app_bind_run.
  cbn [app_print a_env a_files a_stdin a_stdout]. rewrite <- app_assoc.
  cbv zeta. rewrite app_bind_run.
  destruct (initiate_chat _ _ _) as [messages|e]; [| done].
  rewrite quiet_report_prints_nothing. cbn [w_stdout a_env a_files a_stdin a_stdout].
  by rewrite List.app_nil_r.
Qed.

Lemma blank_test (line : string) :
  negb (str_truthy (strip isspace line)) = all_space isspace line.
Proof.
  unfold str_truthy. rewrite negb_involutive.
  destruct (String.eqb_spec (strip isspace line) "") as [H|H].
  - symmetry. by apply strip_empty.
  - destruct (all_space isspace line) eqn:Hs; [| done].
    by apply strip_empty in Hs.
Qed.

Lemma main_blank_run (w : app_world) (line : string) (rest : list string) :
  a_stdin w = line :: rest → all_space isspace line = true →
  ∃ out,
    main isspace initiate_chat open_error now stamp w =
      (Returns tt, AppWorld (a_env w) (a_files w) rest (a_stdout w ++ out)) ∧
    length out = 4%nat ∧
    last out = Some "Please provide a business idea to validate.".
Proof.
  intros Hin Hblank. unfold main.
  do 2 (rewrite app_bind_run; cbn [app_print]).
  rewrite app_bind_run. unfold input at 1. cbn [a_env a_files a_stdin a_stdout].
  rewrite Hin. rewrite blank_test, Hblank.
  rewrite app_print_run. cbn [a_env a_files a_stdin a_stdout].
  rewrite <- !app_assoc. eexists. split; [reflexivity |]. by split.
Qed.

Lemma main_eof_run (w : app_world) :
  a_stdin w = [] →
  ∃ out,
    main isspace initiate_chat open_error now stamp w =
      (Raises (OtherException "EOF when reading a line"),
       AppWorld (a_env w) (a_files w) [] (a_stdout w ++ out)).
Proof.
  intros Hin. unfold main.
  do 2 (rewrite app_bind_run; cbn [app_print]).
  rewrite app_bind_run. unfold input at 1. cbn [a_env a_files a_stdin a_stdout].
  rewrite Hin. rewrite <- !app_assoc. by eexists.
Qed.

(** What [main] leaves behind for a business idea that is not blank. *)
Lemma main_run (w : app_world) (line : string) (rest : list string) :
  a_stdin w = line :: rest → all_space isspace line = false →
  ∃ out,
    main isspace initiate_chat open_error now stamp w =
    (Returns tt,
     AppWorld (a_env w)
       match chat_of isspace initiate_chat (config_of (a_env w)) line with
       | Returns messages =>
           match open_error (default_filename stamp) with
           | None =>
               <[default_filename stamp :=
                   (_generate_final_report line now false
                      (World messages [] [])).1]> (a_files w)
           | Some _ => a_files w
           end
       | Raises _ => a_files w
       end
       rest (a_stdout w ++ out)) ∧
    (match chat_of isspace initiate_chat (config_of (a_env w)) line with
     | Returns messages =>
         match open_error (default_filename stamp) with
         | None => last out =
                   Some (repeat_str "=" 60)
         | Some e => last out =
                     Some "Please check your OpenAI API key and try again."
         end
     | Raises e => last out =
                   Some "Please check your OpenAI API key and try again."
     end).
Proof.
  intros Hin Hblank. unfold main.
  do 2 (rewrite app_bind_run; cbn [app_print]).
  rewrite app_bind_run. unfold input at 1. cbn [a_env a_files a_stdin a_stdout].
  rewrite Hin. rewrite blank_test, Hblank. cbn [negb].
  rewrite app_bind_run, init_run, get_config_list_run.
  cbn [snd a_env a_files a_stdin a_stdout].
  unfold app_try. rewrite app_bind_run, validate_run.
  cbn [config_list a_env a_files a_stdin a_stdout].
  destruct (chat_of isspace initiate_chat (config_of (a_env w)) line)
    as [messages|e].
  - rewrite app_bind_run.
    pose proof (save_report_run open_error stamp
      (_generate_final_report line now false (World messages [] [])).1 None)
      as Hsave. cbv zeta in Hsave. cbn [default from_option id] in Hsave.
    rewrite Hsave.
    destruct (open_error (default_filename stamp)) as [e|].
    + rewrite app_bind_run, !app_print_run.
      cbn [a_env a_files a_stdin a_stdout].
      rewrite <- !app_assoc. eexists. split; [reflexivity |].
      by rewrite !app_assoc, last_snoc.
    + repeat (first [rewrite app_bind_run | rewrite app_print_run];
              cbn [a_env a_files a_stdin a_stdout]).
      rewrite <- !app_assoc. eexists. split; [reflexivity |].
      by rewrite !app_assoc, last_snoc.
  - rewrite app_bind_run, !app_print_run.
    cbn [a_env a_files a_stdin a_stdout].
    rewrite <- !app_assoc. eexists. split; [reflexivity |].
    by rewrite !app_assoc, last_snoc.
Qed.

(** X19: a blank business idea (empty, or whitespace only) stops [main]
    after the request to provide one: no configuration is read, no
    conversation is started and no file is written, whatever the
    conversation engine would have done. *)
Theorem blank_idea_stops_main (w : app_world) (line : string)
    (rest : list string) :
  a_stdin w = line :: rest → all_space isspace line = true →
  ∃ out,
    main isspace initiate_chat open_error now stamp w =
      (Returns tt, AppWorld (a_env w) (a_files w) rest (a_stdout w ++ out)) ∧
    length out = 4%nat ∧
    last out = Some "Please provide a business idea to validate.".
Proof. apply main_blank_run. Qed.

(** X20: [main] lets an exception out only when standard input is at its
    end: then [input] raises [EOFError], outside the [try], and no file
    has been touched. With a line to read, [main] always returns: every
    exception of the validation or of saving is caught. *)
Theorem main_raises_only_at_end_of_input (w : app_world) :
  (a_stdin w = [] →
     ∃ w', main isspace initiate_chat open_error now stamp w =
             (Raises (OtherException "EOF when reading a line"), w') ∧
           a_files w' = a_files w) ∧
  (a_stdin w ≠ [] →
     ∃ w', main isspace initiate_chat open_error now stamp w =
             (Returns tt, w')).
Proof.
  split.
  - intros (out & ->)%main_eof_run. by eexists.
  - destruct (a_stdin w) as [|line rest] eqn:Hin; [done |]. intros _.
    destruct (all_space isspace line) eqn:Hblank.
    + destruct (main_blank_run w line rest Hin Hblank) as (out & -> & _).
      by eexists.
    + destruct (main_run w line rest Hin Hblank) as (out & -> & _).
      by eexists.
Qed.

(** X21: for a business idea that is not blank, [main] writes a file
    exactly when the conversation returns and the file can be opened: the
    file has the default name and holds the report generated, without
    debug output, from the messages the conversation left. When the
    conversation raises, or the file cannot be opened, no file changes. *)
Theorem main_saves_the_report (w : app_world) (line : string)
    (rest : list string) :
  a_stdin w = line :: rest → all_space isspace line = false →
  let after := (main isspace initiate_chat open_error now stamp w).2 in
  a_env after = a_env w ∧ a_stdin after = rest ∧
  a_files after =
    match chat_of isspace initiate_chat (config_of (a_env w)) line with
    | Returns messages =>
        match open_error (default_filename stamp) with
        | None =>
            <[default_filename stamp :=
                (_generate_final_report line now false
                   (World messages [] [])).1]> (a_files w)
        | Some _ => a_files w
        end
    | Raises _ => a_files w
    end.
Proof.
  intros Hin Hblank after. subst after.
  by destruct (main_run w line rest Hin Hblank) as (out & -> & _).
Qed.
End RunFacts.

Lemma blank_idea_stops_main_witness :
  ∃ out,
    main ascii_isspace failing_engine any_file "2024-01-01 00:00:00"
         "20240101_000000" (sample_app_world ["   "]) =
      (Returns tt, AppWorld ∅ ∅ [] ([] ++ out)) ∧
    length out = 4%nat ∧
    last out = Some "Please provide a business idea to validate.".
Proof.
  apply (blank_idea_stops_main ascii_isspace failing_engine any_file
           "2024-01-01 00:00:00" "20240101_000000"
           (sample_app_world ["   "]) "   " []); reflexivity.
Defined.

Lemma main_raises_only_at_end_of_input_witness :
  (∃ w', main ascii_isspace failing_engine any_file "2024-01-01 00:00:00"
              "20240101_000000" (sample_app_world ["tea shop"]) =
           (Returns tt, w')) ∧
  (∃ w', main ascii_isspace failing_engine any_file "2024-01-01 00:00:00"
              "20240101_000000" (sample_app_world []) =
           (Raises (OtherException "EOF when reading a line"), w') ∧
         a_files w' = ∅).
Proof.
  split.
  - by apply (proj2 (main_raises_only_at_end_of_input ascii_isspace
                       failing_engine any_file "2024-01-01 00:00:00"
                       "20240101_000000" (sample_app_world ["tea shop"]))).
  - by apply (proj1 (main_raises_only_at_end_of_input ascii_isspace
                       failing_engine any_file "2024-01-01 00:00:00"
                       "20240101_000000" (sample_app_world []))).
Defined.

Lemma main_saves_the_report_witness :
  a_files (main ascii_isspace sample_engine any_file "2024-01-01 00:00:00"
                "20240101_000000" (sample_app_world ["tea shop"])).2
    !! "business_validation_report_20240101_000000.md" =
  Some (_generate_final_report "tea shop" "2024-01-01 00:00:00" false
          (World [msg "user" (initial_message "tea shop");
                  msg "assistant" "MARKET SIZE: $1B"] [] [])).1 ∧
  a_files (main ascii_isspace failing_engine any_file "2024-01-01 00:00:00"
                "20240101_000000" (sample_app_world ["tea shop"])).2 = ∅.
Proof.
  split.
  - destruct (main_saves_the_report ascii_isspace sample_engine any_file
                "2024-01-01 00:00:00" "20240101_000000"
                (sample_app_world ["tea shop"]) "tea shop" [] eq_refl eq_refl)
      as (_ & _ & ->).
    apply lookup_insert_eq.
  - by destruct (main_saves_the_report ascii_isspace failing_engine any_file
                   "2024-01-01 00:00:00" "20240101_000000"
                   (sample_app_world ["tea shop"]) "tea shop" [] eq_refl eq_refl)
      as (_ & _ & ->).
Defined.

Lemma prompts_ask_for_the_markers_witness :
  ∃ a, ("feedback_agent", a) ∈ _create_agents [] "tea shop" ∧
       str_in "STRATEGIC FEEDBACK:" (agent_system_message a) = true ∧
       str_in "TERMINATE" (agent_system_message a) = true.
Proof.
  destruct (prompts_ask_for_the_markers [] "tea shop" StrategicFeedback)
    as (a & Hin & Hstart & Hend & _).
  exists a. split; [exact Hin |]. split; [exact Hstart |].
  by apply Hend.
Defined.

Lemma generate_reply_frame_witness :
  ∃ final,
    (generate_reply sample_provider sample_parent
       {| name := "MarketResearcher"; business_idea := "tea" |}
       (Some [msg "user" "Hello"; msg "user" "Go"]) tt tt
       (ShimWorld [] [])).1 =
      Returns (final, sample_parent final tt tt) ∧
    length <$> final = Some 2%nat ∧
    ∀ msgs', final = Some msgs' → msgs' !! 0%nat = Some (msg "user" "Hello").
Proof.
  destruct (generate_reply_frame sample_provider sample_parent
              {| name := "MarketResearcher"; business_idea := "tea" |}
              (Some [msg "user" "Hello"; msg "user" "Go"]) tt tt
              (ShimWorld [] [])) as (final & Hv & Hlen & Hinit & _).
  exists final. split; [exact Hv |]. split; [exact Hlen |].
  intros msgs' Hf. by apply (Hinit _ msgs' 0%nat eq_refl Hf); simpl; lia.
Defined.

(** ** The logging wrapper: facts *)

Section LoggingFacts.
Context {Args Result : Type}.
Variable repr : string → string.
Variable _real_create : Args → create_kwargs → outcome Result.

End LoggingFacts.

